(** * optim2sqlite: loading an OPTIM landscape into the storage database

    A shallow embedding of [scripts/optim2sqlite.py].  The script reads two
    summary files ([min.data], [ts.data]) and two coordinate files
    ([extractedmin], [extractedts]), builds one [Minimum] per line of
    [min.data] and one [TransitionState] per line of [ts.data], stages them in
    the database session and commits after each of the two loops.

    Modelling choices.
    - A text file is the list of its lines; [readline] returns the empty
      string at end of file, as Python's [file.readline] does.
    - Python exceptions are values of [exn]; a computation returns its
      outcome together with the state reached when it stopped, so that what
      happened before an exception can be stated.
    - [float] and [int] applied to a token are the two operations of the
      class [PyNum]; every theorem holds for any such pair of conversions.
    - Objects live in a heap (a list in allocation order); the session, the
      [minima] dictionary and the endpoints of a transition state hold
      references into it, so the sharing of a [Minimum] between the three is
      the sharing of one reference.
    - The entity classes and the session belong to the storage library,
      which the script imports; they are modelled from their description,
      and a commit always goes through.  What the store held before the
      run is not part of the state.
    - A trace records, in order, each construction, each [session.add] and
      each [session.commit], so that what happens before and after a
      commit can be stated.
    - The [print] statements and the timers have no effect on the data and
      are left out. *)

From Stdlib Require Import Ascii.
From stdpp Require Import base option list strings gmap.

Open Scope Z_scope.
Open Scope nat_scope.

(** ** Exceptions *)

(** The reasons for which the operations used by the script raise
    [ValueError]. *)
Inductive value_error : Type :=
  | BadFloat (tok : string)            (* float(tok) *)
  | BadInt (tok : string)              (* int(tok) *)
  | Unpack (expected got : nat)        (* a, b, ... = seq *)
  | Broadcast (got want : nat).        (* a[lo:hi] = seq, shapes (got,) and (want,) *)

Inductive exn : Type :=
  | ValueError (why : value_error)
  | KeyError (key : Z).                (* a subclass of Python's LookupError *)

Inductive result (A : Type) : Type :=
  | Ok (a : A)
  | Raise (e : exn).
Arguments Ok {A} a.
Arguments Raise {A} e.

(** ** Computations over a state that may raise *)

Definition M (S A : Type) : Type := S → result A * S.

Definition ret {S A} (a : A) : M S A := λ s, (Ok a, s).

Definition bind {S A B} (c : M S A) (k : A → M S B) : M S B :=
  λ s, match c s with
       | (Ok a, s') => k a s'
       | (Raise e, s') => (Raise e, s')
       end.

Definition raise {S A} (e : exn) : M S A := λ s, (Raise e, s).

Definition lift {S A} (r : result A) : M S A := λ s, (r, s).

Definition modify {S} (f : S → S) : M S unit := λ s, (Ok tt, f s).

Notation "x <- c ;; k" := (bind c (λ x, k))
  (at level 100, c at next level, k at level 200, right associativity).
Notation "c ;;; k" := (bind c (λ _, k))
  (at level 100, k at level 200, right associativity).

(** [for x in l: body x], stopping at the first exception. *)
Fixpoint for_each {S B} (body : B → M S unit) (l : list B) : M S unit :=
  match l with
  | [] => ret tt
  | x :: l' => body x ;;; for_each body l'
  end.

(** A loop that updates a local variable [a]. *)
Fixpoint foldM {S A B} (f : A → B → M S A) (a : A) (l : list B) : M S A :=
  match l with
  | [] => ret a
  | x :: l' => a' <- f a x ;; foldM f a' l'
  end.

(** ** Files and tokens *)

Abbreviation File := (list string) (only parsing).

(** A reference to an object: its position in the heap. *)
Abbreviation ref := nat (only parsing).

(** [file.readline()]: the next line, or the empty string at end of file. *)
Definition readline : M File string :=
  λ f, match f with
       | [] => (Ok ""%string, [])
       | l :: f' => (Ok l, f')
       end.

(** [s.split()]: the maximal runs of non-whitespace characters, whitespace
    being tab, line feed, vertical tab, form feed, carriage return and
    space. *)
Definition split (s : string) : list string := String.words s.

(** ** Numeric conversions *)

Class PyNum : Type := {
  float : Type;
  fzero : float;                          (* an entry of np.zeros *)
  py_float : string → option float;       (* float(tok), None for ValueError *)
  py_int : string → option Z;             (* int(tok), None for ValueError *)
}.

(** An instance for the examples: decimal literals read exactly.  A float
    is a pair [(m, d)] standing for [m / 10^d]; the literals are
    [[+-]digits[.digits]] with at least one digit, integers are
    [[+-]digits]. *)
Module Decimal.

Fixpoint read_digits (s : string) (acc : Z) (n : nat) : Z * nat * string :=
  match s with
  | String c s' =>
      match Ascii.is_nat c with
      | Some d => read_digits s' (10 * acc + Z.of_nat d)%Z (S n)
      | None => (acc, n, s)
      end
  | EmptyString => (acc, n, s)
  end.

Definition read_sign (s : string) : Z * string :=
  match s with
  | String "-"%char s' => ((-1)%Z, s')
  | String "+"%char s' => (1%Z, s')
  | _ => (1%Z, s)
  end.

Definition dec_int (s : string) : option Z :=
  let '(sg, s1) := read_sign s in
  match read_digits s1 0 0 with
  | (v, S _, EmptyString) => Some (sg * v)%Z
  | _ => None
  end.

Definition dec_float (s : string) : option (Z * nat) :=
  let '(sg, s1) := read_sign s in
  match read_digits s1 0 0 with
  | (v, S _, EmptyString) => Some ((sg * v)%Z, 0)
  | (v, ni, String "."%char s2) =>
      match read_digits s2 v 0 with
      | (m, nf, EmptyString) =>
          if decide (ni + nf = 0) then None else Some ((sg * m)%Z, nf)
      | _ => None
      end
  | _ => None
  end.

Definition decimal : PyNum :=
  {| float := Z * nat; fzero := (0%Z, 0);
     py_float := dec_float; py_int := dec_int |}.

End Decimal.

Section Script.
Context `{PyNum}.

Definition to_float (tok : string) : result float :=
  match py_float tok with
  | Some v => Ok v
  | None => Raise (ValueError (BadFloat tok))
  end.

Definition to_int (tok : string) : result Z :=
  match py_int tok with
  | Some k => Ok k
  | None => Raise (ValueError (BadInt tok))
  end.

(** [[float(y) for y in x]] *)
Fixpoint floats (x : list string) : result (list float) :=
  match x with
  | [] => Ok []
  | y :: x' =>
      match to_float y with
      | Raise e => Raise e
      | Ok v =>
          match floats x' with
          | Raise e => Raise e
          | Ok vs => Ok (v :: vs)
          end
      end
  end.

(** [a[lo:hi] = vals] on a one-dimensional numpy array.  The slice is
    clipped to the array; a sequence of the slice's length is copied, a
    sequence of length 1 is broadcast over the slice, any other length
    raises [ValueError]. *)
Definition set_slice (a : list float) (lo hi : nat) (vals : list float)
  : result (list float) :=
  let lo' := lo `min` length a in
  let hi' := (hi `min` length a) `max` lo' in
  let n := hi' - lo' in
  if decide (length vals = n) then Ok (take lo' a ++ vals ++ drop hi' a)
  else match vals with
       | [v] => Ok (take lo' a ++ replicate n v ++ drop hi' a)
       | _ => Raise (ValueError (Broadcast (length vals) n))
       end.

(** [read_coords(file)], with the global [natoms] as a parameter. *)
Definition read_coords_step (coords : list float) (i : nat)
  : M File (list float) :=
  line <- readline ;;
  let x := split line in
  vals <- lift (floats x) ;;
  lift (set_slice coords (i * 3) (i * 3 + 3) vals).

Definition read_coords (natoms : nat) : M File (list float) :=
  foldM read_coords_step (replicate (3 * natoms) fzero) (seq 0 natoms).

(** ** Entities, the session and the script's variables *)

(** Modelled from the spec: the entity classes [Minimum] and
    [TransitionState] of [pygmin.storage.database], whose source is not
    part of the script.  A minimum holds an energy and a coordinate vector;
    a transition state holds an energy, a coordinate vector and two
    references to minima.  Construction is pure and validates nothing. *)
Inductive Obj : Type :=
  | Minimum (energy : float) (coords : list float)
  | TransitionState (energy : float) (coords : list float) (min1 min2 : ref).

Definition is_minimum (o : Obj) : bool :=
  match o with Minimum _ _ => true | TransitionState _ _ _ _ => false end.

Definition is_ts (o : Obj) : bool :=
  match o with Minimum _ _ => false | TransitionState _ _ _ _ => true end.

(** What the script does to the heap and to the session, in order. *)
Inductive Event : Type :=
  | Construct (r : ref)
  | Add (r : ref)
  | Commit.

Record State : Type := mkState {
  heap : list Obj;          (* every object constructed so far *)
  pending : list ref;       (* db.session: added, not yet committed *)
  durable : list ref;       (* db.session: committed *)
  trace : list Event;
  minima : gmap Z ref;      (* minima = {} *)
  mini : Z;                 (* mini = 1 *)
  fcoords : File;           (* the open coordinate file *)
}.

Definition init : State :=
  {| heap := []; pending := []; durable := []; trace := [];
     minima := ∅; mini := 1; fcoords := [] |}.

(** A constructor call: the new object goes at the end of the heap. *)
Definition new (o : Obj) : M State ref :=
  λ st, (Ok (length (heap st)),
         {| heap := heap st ++ [o]; pending := pending st;
            durable := durable st;
            trace := trace st ++ [Construct (length (heap st))];
            minima := minima st; mini := mini st; fcoords := fcoords st |}).

(** Modelled from the spec: [db.session.add] of the storage library, the
    sink's [stageEntity]; it buffers the entity and makes nothing durable. *)
Definition session_add (r : ref) : M State unit :=
  modify (λ st,
    {| heap := heap st; pending := pending st ++ [r];
       durable := durable st; trace := trace st ++ [Add r];
       minima := minima st; mini := mini st; fcoords := fcoords st |}).

(** Modelled from the spec: [db.session.commit] of the storage library;
    everything staged since the last commit becomes durable, and the
    staging set is empty afterwards.  A commit that the store refuses is
    not modelled. *)
Definition session_commit : M State unit :=
  modify (λ st,
    {| heap := heap st; pending := [];
       durable := durable st ++ pending st; trace := trace st ++ [Commit];
       minima := minima st; mini := mini st; fcoords := fcoords st |}).

(** [fcoords = open(...)] *)
Definition open_fcoords (f : File) : M State unit :=
  modify (λ st,
    {| heap := heap st; pending := pending st; durable := durable st;
       trace := trace st; minima := minima st; mini := mini st;
       fcoords := f |}).

(** [read_coords(fcoords)] *)
Definition read_fcoords (natoms : nat) : M State (list float) :=
  λ st, let '(r, f) := read_coords natoms (fcoords st) in
        (r, {| heap := heap st; pending := pending st;
               durable := durable st; trace := trace st;
               minima := minima st; mini := mini st; fcoords := f |}).

(** [minima[mini] = r] *)
Definition minima_store (r : ref) : M State unit :=
  modify (λ st,
    {| heap := heap st; pending := pending st; durable := durable st;
       trace := trace st; minima := <[mini st := r]> (minima st);
       mini := mini st; fcoords := fcoords st |}).

(** [mini += 1] *)
Definition mini_incr : M State unit :=
  modify (λ st,
    {| heap := heap st; pending := pending st; durable := durable st;
       trace := trace st; minima := minima st;
       mini := (mini st + 1)%Z; fcoords := fcoords st |}).

(** [minima[k]] *)
Definition minima_get (k : Z) : M State ref :=
  λ st, match minima st !! k with
        | Some r => (Ok r, st)
        | None => (Raise (KeyError k), st)
        end.

(** ** The two loop bodies and the script *)

Definition min_body (natoms : nat) (line : string) : M State unit :=
  coords <- read_fcoords natoms ;;
  match split line with
  | [energy; frequency; pgorder; itx; ity; itz] =>
      e <- lift (to_float energy) ;;
      min1 <- new (Minimum e coords) ;;
      session_add min1 ;;;
      minima_store min1 ;;;
      mini_incr
  | toks => raise (ValueError (Unpack 6 (length toks)))
  end.

Definition ts_body (natoms : nat) (line : string) : M State unit :=
  coords <- read_fcoords natoms ;;
  match split line with
  | [energy; frequency; pgorder; min1; min2; itx; ity; itz] =>
      e <- lift (to_float energy) ;;
      k1 <- lift (to_int min1) ;;
      m1 <- minima_get k1 ;;
      k2 <- lift (to_int min2) ;;
      m2 <- minima_get k2 ;;
      ts <- new (TransitionState e coords m1 m2) ;;
      session_add ts
  | toks => raise (ValueError (Unpack 8 (length toks)))
  end.

Definition script (natoms : nat)
    (min_data extractedmin ts_data extractedts : File) : M State unit :=
  open_fcoords extractedmin ;;;
  for_each (min_body natoms) min_data ;;;
  session_commit ;;;
  open_fcoords extractedts ;;;
  for_each (ts_body natoms) ts_data ;;;
  session_commit.

(** The run of the script on the four files, from the initial values of
    its variables. *)
Definition run (natoms : nat)
    (min_data extractedmin ts_data extractedts : File) : result unit * State :=
  script natoms min_data extractedmin ts_data extractedts init.

(** [natoms = 38] *)
Definition natoms : nat := 38.

(** The script as it stands: [run] at 38 atoms. *)
Definition main (min_data extractedmin ts_data extractedts : File)
  : result unit * State :=
  run natoms min_data extractedmin ts_data extractedts.

(** ** A line-by-line reading of [read_coords] *)

(** The three values a coordinate line contributes: its tokens converted,
    three of them taken as they are, a single one repeated three times. *)
Definition triple (vals : list float) : result (list float) :=
  match vals with
  | [v] => Ok [v; v; v]
  | [_; _; _] => Ok vals
  | _ => Raise (ValueError (Broadcast (length vals) 3))
  end.

Definition line_values (line : string) : result (list float) :=
  match floats (split line) with
  | Raise e => Raise e
  | Ok vals => triple vals
  end.

(** [n] lines read one after the other, their values concatenated. *)
Fixpoint read_block (n : nat) : M File (list float) :=
  match n with
  | 0 => ret []
  | S n' =>
      line <- readline ;;
      t <- lift (line_values line) ;;
      c <- read_block n' ;;
      ret (t ++ c)
  end.

(** A coordinate line of three numeric tokens. *)
Definition coord_line_ok (line : string) : bool :=
  match split line with
  | [a; b; c] =>
      bool_decide (is_Some (py_float a)) && bool_decide (is_Some (py_float b))
      && bool_decide (is_Some (py_float c))
  | _ => false
  end.

(** A coordinate file with at least [n] lines, the first [n] well formed. *)
Definition coords_ok (n : nat) (f : File) : bool :=
  bool_decide (n ≤ length f) && forallb coord_line_ok (take n f).

(** ** Well-formed summary lines *)

Definition numeric (tok : string) : bool := bool_decide (is_Some (py_float tok)).

(** Whether a token converts to an ordinal between 1 and [n]. *)
Definition ordinal_in (n : nat) (tok : string) : bool :=
  match py_int tok with
  | Some k => bool_decide (1 ≤ k ≤ Z.of_nat n)%Z
  | None => false
  end.

(** What [min_body] asks of a line of [min.data]: six fields, the first
    of them numeric. *)
Definition min_line_ok (line : string) : bool :=
  match split line with
  | [energy; _; _; _; _; _] => numeric energy
  | _ => false
  end.

(** What [ts_body] asks of a line of [ts.data] when [n] minima are known:
    eight fields, a numeric energy, two ordinals between 1 and [n]. *)
Definition ts_line_ok (n : nat) (line : string) : bool :=
  match split line with
  | [energy; _; _; min1; min2; _; _; _] =>
      numeric energy && ordinal_in n min1 && ordinal_in n min2
  | _ => false
  end.

(** ** The states the script goes through *)

(** The dictionary after [n] minima: ordinal [i + 1] maps to reference [i]. *)
Fixpoint index_of (n : nat) : gmap Z ref :=
  match n with
  | 0 => ∅
  | S n' => <[(Z.of_nat n' + 1)%Z := n']> (index_of n')
  end.

(** The events of constructing and adding the objects [lo .. lo + n - 1]. *)
Definition built (lo n : nat) : list Event :=
  flat_map (λ r, [Construct r; Add r]) (seq lo n).

(** The events before the first commit. *)
Fixpoint first_phase (tr : list Event) : list Event :=
  match tr with
  | [] => []
  | Commit :: _ => []
  | ev :: tr' => ev :: first_phase tr'
  end.

Definition is_commit (ev : Event) : bool :=
  match ev with Commit => true | _ => false end.

(** Inside the first loop, [mins] being the minima built so far. *)
Definition loading_minima (mins : list Obj) (f : File) : State :=
  {| heap := mins; pending := seq 0 (length mins); durable := [];
     trace := built 0 (length mins);
     minima := index_of (length mins);
     mini := (Z.of_nat (length mins) + 1)%Z; fcoords := f |}.

(** Inside the second loop, [tss] being the transition states built so
    far. *)
Definition loading_ts (mins tss : list Obj) (f : File) : State :=
  {| heap := mins ++ tss; pending := seq (length mins) (length tss);
     durable := seq 0 (length mins);
     trace := built 0 (length mins) ++ Commit
                :: built (length mins) (length tss);
     minima := index_of (length mins);
     mini := (Z.of_nat (length mins) + 1)%Z; fcoords := f |}.

(** After the second commit. *)
Definition loaded (mins tss : list Obj) (f : File) : State :=
  {| heap := mins ++ tss; pending := [];
     durable := seq 0 (length mins) ++ seq (length mins) (length tss);
     trace := (built 0 (length mins) ++ Commit
                 :: built (length mins) (length tss)) ++ [Commit];
     minima := index_of (length mins);
     mini := (Z.of_nat (length mins) + 1)%Z; fcoords := f |}.

(** ** The records, one line at a time *)

(** The object a line of [min.data] yields, the coordinate file being the
    only state. *)
Definition min_record (natoms : nat) (line : string) : M File Obj :=
  coords <- read_coords natoms ;;
  match split line with
  | [energy; frequency; pgorder; itx; ity; itz] =>
      e <- lift (to_float energy) ;;
      ret (Minimum e coords)
  | toks => raise (ValueError (Unpack 6 (length toks)))
  end.

Definition lookup_ordinal (n : nat) (k : Z) : result ref :=
  match index_of n !! k with
  | Some r => Ok r
  | None => Raise (KeyError k)
  end.

(** The object a line of [ts.data] yields when [n] minima are known. *)
Definition ts_record (natoms n : nat) (line : string) : M File Obj :=
  coords <- read_coords natoms ;;
  match split line with
  | [energy; frequency; pgorder; min1; min2; itx; ity; itz] =>
      e <- lift (to_float energy) ;;
      k1 <- lift (to_int min1) ;;
      m1 <- lift (lookup_ordinal n k1) ;;
      k2 <- lift (to_int min2) ;;
      m2 <- lift (lookup_ordinal n k2) ;;
      ret (TransitionState e coords m1 m2)
  | toks => raise (ValueError (Unpack 8 (length toks)))
  end.

(** One more record collected, or the exception that stopped it. *)
Definition collect (rec : string → M File Obj) (line : string)
  : M (list Obj * File) unit :=
  λ '(os, f), match rec line f with
              | (Ok o, f') => (Ok tt, (os ++ [o], f'))
              | (Raise e, f') => (Raise e, (os, f'))
              end.

(** A line whose record is built from the coordinate block alone: [rec]
    fails on it only when [read_coords] does. *)
Definition builds_with (natoms : nat) (rec : string → M File Obj)
    (line : string) (g : list float → Obj) : Prop :=
  ∀ f, rec line f =
       match read_coords natoms f with
       | (Ok c, f') => (Ok (g c), f')
       | (Raise e, f') => (Raise e, f')
       end.

Definition accepts (natoms : nat) (rec : string → M File Obj)
    (line : string) : Prop :=
  ∃ g, builds_with natoms rec line g.

(** The number of objects of a kind in a heap, of events of a kind in a
    trace. *)
Definition count {A} (p : A → bool) (l : list A) : nat :=
  length (List.filter p l).

(** A transition state whose two endpoints are among the first [n]
    references. *)
Definition ts_within (n : nat) (o : Obj) : bool :=
  match o with
  | TransitionState _ _ a b => bool_decide (a < n) && bool_decide (b < n)
  | Minimum _ _ => false
  end.

(** Reference [x] is a minimum of the first phase: it is recorded in the
    index, it points to a [Minimum], and it was constructed before the
    first commit. *)
Definition phase1_minimum (st : State) (x : ref) : Prop :=
  (∃ k, minima st !! k = Some x)
  ∧ (∃ e c, heap st !! x = Some (Minimum e c))
  ∧ Construct x ∈ first_phase (trace st).

(** [o] is the [Minimum] built from a line of [min.data] and from the
    block of [natoms] lines at the head of [f]. *)
Definition min_of_line (natoms : nat) (line : string) (f : File) (o : Obj)
  : Prop :=
  ∃ tok e c f',
    split line !! 0 = Some tok ∧ py_float tok = Some e
    ∧ read_coords natoms f = (Ok c, f')
    ∧ o = Minimum e c.

(** [o] is the [TransitionState] built from a line of [ts.data] and from
    the block at the head of [f], its endpoints being what [index] holds
    for the two ordinals of the line. *)
Definition ts_of_line (natoms : nat) (index : gmap Z ref) (line : string)
    (f : File) (o : Obj) : Prop :=
  ∃ tok tok1 tok2 e k1 k2 c f' a b,
    split line !! 0 = Some tok ∧ py_float tok = Some e
    ∧ split line !! 3 = Some tok1 ∧ py_int tok1 = Some k1
    ∧ split line !! 4 = Some tok2 ∧ py_int tok2 = Some k2
    ∧ read_coords natoms f = (Ok c, f')
    ∧ index !! k1 = Some a ∧ index !! k2 = Some b
    ∧ o = TransitionState e c a b.

End Script.

(** ** Sample files

    Two atoms per structure, decimal literals. *)
Module Sample.
Import Decimal.
Open Scope string_scope.

Definition min_data : list string :=
  ["-10.5 1.0 1 0 0 0"; "-9.8 1.0 1 0 0 0"].

Definition extractedmin : list string :=
  ["0.0 0.0 0.0"; "1.0 0.0 0.0"; "0.0 1.0 0.0"; "0.0 0.0 1.0"].

Definition ts_data : list string := ["-9.0 1.0 1 1 2 0 0 0"].

Definition extractedts : list string := ["0.5 0.0 0.0"; "0.5 0.5 0.0"].

(** A second transition state that names a third minimum. *)
Definition ts_line_3 : string := "-8.5 1.0 1 2 3 0 0 0".

Definition extractedts2 : list string :=
  extractedts ++ ["0.0 0.5 0.0"; "0.0 0.5 0.5"].

(** A minimum whose frequency and inertia components are not numbers. *)
Definition min_line_words : string := "-9.8 abc 1 x y z".

(** A minimum with five fields. *)
Definition min_line_short : string := "-9.8 1.0 1 0 0".

(** The values of the first block of [extractedmin]. *)
Definition block0 : list (Z * nat) :=
  [(0%Z, 1); (0%Z, 1); (0%Z, 1); (10%Z, 1); (0%Z, 1); (0%Z, 1)].

(** The state in which the first line of [min.data] is processed. *)
Definition start : State (H := decimal) :=
  {| heap := []; pending := []; durable := []; trace := [];
     minima := ∅; mini := 1; fcoords := extractedmin |}.

End Sample.

(** * Properties *)

Section Properties.
Context `{PyNum}.

(** ** The coordinate reader *)

Lemma triple_length vals t : triple vals = Ok t → length t = 3.
Proof.
  destruct vals as [|a [|b [|c [|d l]]]]; simpl; intros E; try discriminate;
    by inversion E.
Qed.

Lemma set_slice_triple (c : list float) i k vals :
  length c = 3 * (i + S k) →
  set_slice c (i * 3) (i * 3 + 3) vals =
    match triple vals with
    | Ok t => Ok (take (i * 3) c ++ t ++ drop (i * 3 + 3) c)
    | Raise e => Raise e
    end.
Proof.
  intros Hc. unfold set_slice.
  replace (Nat.min (i * 3) (length c)) with (i * 3) by lia.
  replace (Nat.max (Nat.min (i * 3 + 3) (length c)) (i * 3))
    with (i * 3 + 3) by lia.
  replace (i * 3 + 3 - i * 3) with 3 by lia.
  destruct vals as [|a [|b [|d [|e l]]]]; simpl; try done;
    case_decide; simpl in *; (lia || done).
Qed.

Lemma read_block_length n : ∀ f c f',
  read_block n f = (Ok c, f') → length c = 3 * n.
Proof.
  induction n as [|n IH]; intros f c f'; simpl.
  - unfold ret. intros [= <- _]. done.
  - unfold bind, lift, ret. destruct (readline f) as [[line|e] f1]; [|done].
    destruct (line_values line) as [t|e] eqn:Et; [|done].
    destruct (read_block n f1) as [[b|e] f2] eqn:Eb; [|done].
    intros [= <- _]. rewrite length_app. apply IH in Eb.
    unfold line_values in Et. destruct (floats _); [|done].
    apply triple_length in Et. lia.
Qed.

Lemma read_loop k : ∀ i (c : list float) f,
  length c = 3 * (i + k) →
  foldM read_coords_step c (seq i k) f =
    match read_block k f with
    | (Ok b, f') => (Ok (take (i * 3) c ++ b), f')
    | (Raise e, f') => (Raise e, f')
    end.
Proof.
  induction k as [|k IH]; intros i c f Hc; simpl.
  - unfold ret. rewrite app_nil_r, take_ge by lia. done.
  - unfold bind, read_coords_step, bind, lift, line_values.
    destruct (readline f) as [[line|e] f1]; [|done].
    destruct (floats (split line)) as [vals|e]; [|done].
    rewrite (set_slice_triple c i k vals Hc).
    destruct (triple vals) as [t|e] eqn:Et; [|done].
    apply triple_length in Et.
    rewrite IH by (rewrite !length_app, length_take, length_drop; lia).
    destruct (read_block k f1) as [[b|e] f2]; [|done].
    unfold ret. f_equal. f_equal.
    rewrite (app_assoc _ t).
    replace (S i * 3) with (length (take (i * 3) c ++ t))
      by (rewrite length_app, length_take; lia).
    rewrite take_app_length. by rewrite <- app_assoc.
Qed.

(** [read_coords] reads its block line by line. *)
Lemma read_coords_block natoms f : read_coords natoms f = read_block natoms f.
Proof.
  unfold read_coords. rewrite read_loop by (rewrite length_replicate; lia).
  destruct (read_block natoms f) as [[b|e] f']; done.
Qed.

(** ** Coordinate blocks *)

Lemma floats_length x : ∀ vals, floats x = Ok vals → length vals = length x.
Proof.
  induction x as [|y x IH]; simpl; intros vals.
  - by intros [= <-].
  - destruct (to_float y); [|done]. destruct (floats x); [|done].
    intros [= <-]. simpl. f_equal. by apply IH.
Qed.

Lemma floats_bad_token x tok :
  tok ∈ x → py_float tok = None → ∃ w, floats x = Raise (ValueError w).
Proof.
  intros Hin Hbad. induction x as [|y x IH]; [by apply elem_of_nil in Hin|].
  simpl. unfold to_float at 1. apply elem_of_cons in Hin as [<-|Hin].
  - rewrite Hbad. eauto.
  - destruct (py_float y); [|eauto].
    destruct (IH Hin) as [w ->]. eauto.
Qed.

Lemma floats_error x e : floats x = Raise e → ∃ w, e = ValueError w.
Proof.
  induction x as [|y x IH]; simpl; [done|]. unfold to_float.
  destruct (py_float y).
  - destruct (floats x); [done|]. intros [= <-]. by apply IH.
  - intros [= <-]. eauto.
Qed.

Lemma line_values_error line e :
  line_values line = Raise e → ∃ w, e = ValueError w.
Proof.
  unfold line_values. destruct (floats (split line)) as [vals|e'] eqn:E.
  - destruct vals as [|a [|b [|c [|d l]]]]; simpl; try done;
      intros [= <-]; eauto.
  - intros [= <-]. by apply floats_error in E.
Qed.

Lemma read_block_error n : ∀ f e f',
  read_block n f = (Raise e, f') → ∃ w, e = ValueError w.
Proof.
  induction n as [|n IH]; intros f e f'; simpl; [done|].
  unfold bind, lift, ret. destruct (readline f) as [[line|e1] f1] eqn:Er.
  - destruct (line_values line) as [t|e2] eqn:Et.
    + destruct (read_block n f1) as [[c|e3] f2] eqn:Eb; [done|].
      intros [= <- _]. by apply IH in Eb.
    + intros [= <- _]. by apply line_values_error in Et.
  - by destruct f.
Qed.

Lemma coord_line_values line :
  coord_line_ok line = true → ∃ a b c, line_values line = Ok [a; b; c].
Proof.
  unfold coord_line_ok, line_values.
  destruct (split line) as [|t1 [|t2 [|t3 [|t4 l]]]]; try done.
  rewrite !andb_true_iff, !bool_decide_eq_true.
  intros [[[a Ha] [b Hb]] [c Hc]]. exists a, b, c.
  simpl. unfold to_float. by rewrite Ha, Hb, Hc.
Qed.

(** A line with no token, two tokens or more than three, or with a token
    that is not numeric, has no values. *)
Lemma line_values_bad line :
  (length (split line) ≠ 1 ∧ length (split line) ≠ 3)
  ∨ (∃ tok, tok ∈ split line ∧ py_float tok = None) →
  ∃ w, line_values line = Raise (ValueError w).
Proof.
  unfold line_values. intros [[H1 H3]|(tok & Hin & Hbad)].
  - destruct (floats (split line)) as [vals|e] eqn:E.
    + apply floats_length in E. rewrite <- E in H1, H3.
      destruct vals as [|a [|b [|c [|d l]]]]; simpl in *; try done; eauto.
    + apply floats_error in E as [w ->]. eauto.
  - destruct (floats_bad_token _ _ Hin Hbad) as [w ->]. eauto.
Qed.

Lemma read_block_ok n : ∀ f,
  coords_ok n f = true → ∃ c, read_block n f = (Ok c, drop n f).
Proof.
  unfold coords_ok. induction n as [|n IH]; intros f; simpl.
  - intros _. exists []. by rewrite drop_0.
  - rewrite andb_true_iff, bool_decide_eq_true. intros [Hlen Hall].
    destruct f as [|line f]; simpl in *; [lia|].
    apply andb_true_iff in Hall as [Hl Hall].
    destruct (coord_line_values line Hl) as (a & b & c & Hv).
    destruct (IH f) as [cs Hcs].
    { rewrite andb_true_iff, bool_decide_eq_true. split; [lia|done]. }
    exists ([a; b; c] ++ cs). unfold bind, lift, ret. simpl.
    by rewrite Hv, Hcs.
Qed.

(** Running out of lines inside a block: the empty line returned at end of
    file has no token, and nothing can be assigned to the slice. *)
Lemma read_block_eof n : ∀ f,
  length f < n → forallb coord_line_ok f = true →
  read_block n f = (Raise (ValueError (Broadcast 0 3)), []).
Proof.
  induction n as [|n IH]; intros f Hlen Hall; [lia|].
  destruct f as [|line f]; simpl in *; [done|].
  apply andb_true_iff in Hall as [Hl Hall].
  destruct (coord_line_values line Hl) as (a & b & c & Hv).
  unfold bind, lift. simpl. rewrite Hv, (IH f) by (lia || done). done.
Qed.

Lemma read_block_consumes n : ∀ f c f',
  read_block n f = (Ok c, f') → n ≤ length f ∧ f' = drop n f.
Proof.
  induction n as [|n IH]; intros f c f'; simpl.
  - unfold ret. intros [= _ <-]. split; [lia|by rewrite drop_0].
  - unfold bind, lift, ret. destruct f as [|line f]; simpl; [done|].
    destruct (line_values line) as [t|e]; [|done].
    destruct (read_block n f) as [[b|e] f2] eqn:Eb; [|done].
    intros [= _ <-]. apply IH in Eb as [? ?]. split; [lia|done].
Qed.

Lemma read_block_bad_line n : ∀ f j line,
  j < n → f !! j = Some line →
  (∃ w, line_values line = Raise (ValueError w)) →
  ∃ w f', read_block n f = (Raise (ValueError w), f').
Proof.
  induction n as [|n IH]; intros f j line Hj Hline Hbad; [lia|].
  destruct f as [|l0 f]; [done|]. simpl. unfold bind, lift, ret. simpl.
  destruct j as [|j]; simpl in Hline.
  - injection Hline as ->. destruct Hbad as [w ->]. eauto.
  - destruct (line_values l0) as [t|e] eqn:Et.
    + destruct (IH f j line) as (w & f' & ->); [lia|done|done|]. eauto.
    + apply line_values_error in Et as [w ->]. eauto.
Qed.

Lemma coords_ok_add a b f :
  coords_ok (a + b) f = coords_ok a f && coords_ok b (drop a f).
Proof.
  unfold coords_ok. rewrite <- take_take_drop, forallb_app, length_drop.
  destruct (bool_decide (a + b ≤ length f)) eqn:E1.
  - apply bool_decide_eq_true in E1.
    rewrite (bool_decide_eq_true_2 (a ≤ length f)) by lia.
    rewrite (bool_decide_eq_true_2 (b ≤ length f - a)) by lia. simpl.
    done.
  - apply bool_decide_eq_false in E1. simpl.
    destruct (bool_decide (a ≤ length f)) eqn:E2; [|done].
    apply bool_decide_eq_true in E2.
    rewrite (bool_decide_eq_false_2 (b ≤ length f - a)) by lia. simpl.
    by rewrite andb_false_r.
Qed.

(** ** The loops as record collectors *)

Lemma built_snoc lo n : built lo (S n) = built lo n ++ [Construct (lo + n); Add (lo + n)].
Proof.
  unfold built. rewrite seq_S, flat_map_app. simpl. done.
Qed.

Lemma loading_minima_snoc mins o f :
  {| heap := mins ++ [o]; pending := seq 0 (length mins) ++ [length mins];
     durable := [];
     trace := (built 0 (length mins) ++ [Construct (length mins)])
                ++ [Add (length mins)];
     minima := <[(Z.of_nat (length mins) + 1)%Z := length mins]>
                 (index_of (length mins));
     mini := (Z.of_nat (length mins) + 1 + 1)%Z; fcoords := f |}
  = loading_minima (mins ++ [o]) f.
Proof.
  unfold loading_minima. rewrite length_app. simpl.
  replace (length mins + 1) with (S (length mins)) by lia.
  rewrite seq_S, built_snoc. simpl. rewrite <- app_assoc. simpl.
  f_equal. lia.
Qed.

Lemma loading_ts_snoc mins tss o f :
  {| heap := (mins ++ tss) ++ [o];
     pending := seq (length mins) (length tss) ++ [length (mins ++ tss)];
     durable := seq 0 (length mins);
     trace := ((built 0 (length mins) ++ Commit
                  :: built (length mins) (length tss))
                ++ [Construct (length (mins ++ tss))])
                ++ [Add (length (mins ++ tss))];
     minima := index_of (length mins);
     mini := (Z.of_nat (length mins) + 1)%Z; fcoords := f |}
  = loading_ts mins (tss ++ [o]) f.
Proof.
  unfold loading_ts. rewrite !length_app. simpl.
  replace (length tss + 1) with (S (length tss)) by lia.
  rewrite seq_S, built_snoc. simpl. rewrite <- !app_assoc. simpl.
  done.
Qed.

Lemma min_body_collect natoms line mins f :
  min_body natoms line (loading_minima mins f) =
    let '(r, (mins', f')) := collect (min_record natoms) line (mins, f) in
    (r, loading_minima mins' f').
Proof.
  unfold min_body, collect, min_record, bind, read_fcoords. simpl.
  destruct (read_coords natoms f) as [[c|e] f']; [|done].
  destruct (split line) as [|t1 [|t2 [|t3 [|t4 [|t5 [|t6 [|t7 l]]]]]]];
    try done.
  unfold lift, to_float. destruct (py_float t1) as [v|]; [|done].
  cbv beta iota delta [new session_add minima_store mini_incr modify
    loading_minima heap pending durable trace minima mini fcoords].
  f_equal. apply loading_minima_snoc.
Qed.

Lemma ts_body_collect natoms line mins tss f :
  ts_body natoms line (loading_ts mins tss f) =
    let '(r, (tss', f')) :=
      collect (ts_record natoms (length mins)) line (tss, f) in
    (r, loading_ts mins tss' f').
Proof.
  unfold ts_body, collect, ts_record, bind, read_fcoords. simpl.
  destruct (read_coords natoms f) as [[c|e] f']; [|done].
  destruct (split line)
    as [|t1 [|t2 [|t3 [|t4 [|t5 [|t6 [|t7 [|t8 [|t9 l]]]]]]]]]; try done.
  unfold lift, to_float, to_int, minima_get, lookup_ordinal. simpl.
  destruct (py_float t1) as [v|]; [|done].
  destruct (py_int t4) as [k1|]; [|done].
  destruct (index_of (length mins) !! k1) as [m1|]; [|done].
  destruct (py_int t5) as [k2|]; [|done]. simpl.
  destruct (index_of (length mins) !! k2) as [m2|]; [|done].
  cbv beta iota delta [new session_add modify
    loading_ts heap pending durable trace minima mini fcoords].
  f_equal. apply loading_ts_snoc.
Qed.

Lemma min_loop_collect natoms lines : ∀ mins f,
  for_each (min_body natoms) lines (loading_minima mins f) =
    let '(r, (mins', f')) :=
      for_each (collect (min_record natoms)) lines (mins, f) in
    (r, loading_minima mins' f').
Proof.
  induction lines as [|line lines IH]; intros mins f; simpl; [done|].
  unfold bind. rewrite min_body_collect.
  destruct (collect _ line (mins, f)) as [[[]|e] [mins' f']]; [|done].
  apply IH.
Qed.

Lemma ts_loop_collect natoms lines mins : ∀ tss f,
  for_each (ts_body natoms) lines (loading_ts mins tss f) =
    let '(r, (tss', f')) :=
      for_each (collect (ts_record natoms (length mins))) lines (tss, f) in
    (r, loading_ts mins tss' f').
Proof.
  induction lines as [|line lines IH]; intros tss f; simpl; [done|].
  unfold bind. rewrite ts_body_collect.
  destruct (collect _ line (tss, f)) as [[[]|e] [tss' f']]; [|done].
  apply IH.
Qed.

Lemma commit_minima mins f :
  session_commit (loading_minima mins f) = (Ok tt, loading_ts mins [] f).
Proof.
  unfold session_commit, modify, loading_minima, loading_ts. simpl.
  by rewrite app_nil_r.
Qed.

(** The run of the script, in terms of the records its two loops collect. *)
Lemma run_collect natoms md em td et :
  run natoms md em td et =
    match for_each (collect (min_record natoms)) md ([], em) with
    | (Raise e, (mins, f)) => (Raise e, loading_minima mins f)
    | (Ok _, (mins, _)) =>
        match for_each (collect (ts_record natoms (length mins))) td ([], et)
        with
        | (Raise e, (tss, f)) => (Raise e, loading_ts mins tss f)
        | (Ok _, (tss, f)) => (Ok tt, loaded mins tss f)
        end
    end.
Proof.
  unfold run, script, bind at 1.
  change (open_fcoords em init) with (Ok tt, loading_minima [] em).
  cbv beta iota. unfold bind at 1. rewrite min_loop_collect.
  destruct (for_each _ md ([], em)) as [[[]|e] [mins f]]; [|done].
  unfold bind at 1. rewrite commit_minima. unfold bind at 1.
  change (open_fcoords et (loading_ts mins [] f))
    with (Ok tt, loading_ts mins [] et).
  cbv beta iota. unfold bind at 1. rewrite ts_loop_collect.
  destruct (for_each _ td ([], et)) as [[[]|e] [tss f2]]; [|done].
  done.
Qed.

(** ** The dictionary of minima *)

Lemma index_of_lookup n k r :
  index_of n !! k = Some r ↔ (1 ≤ k ≤ Z.of_nat n)%Z ∧ r = Z.to_nat (k - 1).
Proof.
  induction n as [|n IH]; simpl.
  - rewrite lookup_empty. split; [done|lia].
  - rewrite lookup_insert. case_decide as Hk.
    + subst k. split.
      * intros [= <-]. split; lia.
      * intros [_ ->]. f_equal. lia.
    + rewrite IH. split; intros [? ?]; split; lia.
Qed.

Lemma index_of_none n k :
  index_of n !! k = None ↔ ¬ (1 ≤ k ≤ Z.of_nat n)%Z.
Proof.
  destruct (index_of n !! k) as [r|] eqn:E.
  - apply index_of_lookup in E. destruct E as [Hk _]. split; [done|].
    intros Hn. by destruct Hn.
  - split; [|done]. intros _ Hk.
    assert (index_of n !! k = Some (Z.to_nat (k - 1))) as E'
      by by apply index_of_lookup.
    by rewrite E in E'.
Qed.

Lemma index_of_ordinal n i :
  i < n → index_of n !! (Z.of_nat i + 1)%Z = Some i.
Proof. intros Hi. apply index_of_lookup. split; lia. Qed.

Lemma index_of_size n : size (index_of n) = n.
Proof.
  induction n as [|n IH]; simpl; [apply map_size_empty|].
  rewrite map_size_insert_None; [by rewrite IH|].
  apply index_of_none. lia.
Qed.

(** ** Collecting records *)

Section Collect.
Variable rec : string → M File Obj.

Lemma collect_cons line lines os f :
  for_each (collect rec) (line :: lines) (os, f) =
    match rec line f with
    | (Ok o, f') => for_each (collect rec) lines (os ++ [o], f')
    | (Raise e, f') => (Raise e, (os, f'))
    end.
Proof.
  simpl. unfold bind, collect. by destruct (rec line f) as [[o|e] f'].
Qed.

Lemma collect_shift lines : ∀ os f,
  for_each (collect rec) lines (os, f) =
    let '(r, (new, f')) := for_each (collect rec) lines ([], f) in
    (r, (os ++ new, f')).
Proof.
  induction lines as [|line lines IH]; intros os f.
  - simpl. unfold ret. by rewrite app_nil_r.
  - rewrite !collect_cons. destruct (rec line f) as [[o|e] f'].
    + rewrite (IH (os ++ [o])), (IH ([] ++ [o])).
      destruct (for_each _ lines ([], f')) as [r [new f'']].
      by rewrite <- app_assoc.
    + by rewrite app_nil_r.
Qed.

Lemma collect_step line lines f :
  for_each (collect rec) (line :: lines) ([], f) =
    match rec line f with
    | (Ok o, f') =>
        let '(r, (new, f'')) := for_each (collect rec) lines ([], f') in
        (r, (o :: new, f''))
    | (Raise e, f') => (Raise e, ([], f'))
    end.
Proof.
  rewrite collect_cons. destruct (rec line f) as [[o|e] f']; [|done].
  apply collect_shift.
Qed.

Lemma collect_app l1 l2 f new1 f1 :
  for_each (collect rec) l1 ([], f) = (Ok tt, (new1, f1)) →
  for_each (collect rec) (l1 ++ l2) ([], f) =
    let '(r, (new2, f2)) := for_each (collect rec) l2 ([], f1) in
    (r, (new1 ++ new2, f2)).
Proof.
  revert f new1. induction l1 as [|line l1 IH]; intros f new1.
  - simpl. unfold ret. intros [= <- <-].
    by destruct (for_each _ l2 ([], f)) as [r [new2 f2]].
  - simpl app. rewrite !collect_step.
    destruct (rec line f) as [[o|e] f']; [|done].
    destruct (for_each _ l1 ([], f')) as [r1 [n1 f1']] eqn:E1.
    intros [= -> <- ->]. rewrite (IH f' n1 E1).
    by destruct (for_each _ l2 ([], f1)) as [r [new2 f2]].
Qed.

(** Every collected object comes from a line on which [rec] succeeded. *)
Lemma collect_all (P : Obj → Prop) lines :
  (∀ line f o f', rec line f = (Ok o, f') → P o) →
  ∀ f r new f',
    for_each (collect rec) lines ([], f) = (r, (new, f')) → Forall P new.
Proof.
  intros HP. induction lines as [|line lines IH]; intros f r new f'.
  - simpl. unfold ret. intros [= _ <- _]. constructor.
  - rewrite collect_step. destruct (rec line f) as [[o|e] f1] eqn:Er.
    + destruct (for_each _ lines ([], f1)) as [r1 [n1 f2]] eqn:E1.
      intros [= _ <- _]. constructor; eauto.
    + intros [= _ <- _]. constructor.
Qed.

(** A loop that completes has one object per line; a loop that raises has
    fewer. *)
Lemma collect_length lines : ∀ f r new f',
  for_each (collect rec) lines ([], f) = (r, (new, f')) →
  match r with
  | Ok _ => length new = length lines
  | Raise _ => length new < length lines
  end.
Proof.
  induction lines as [|line lines IH]; intros f r new f'.
  - simpl. unfold ret. by intros [= <- <- _].
  - rewrite collect_step. destruct (rec line f) as [[o|e] f1] eqn:Er.
    + destruct (for_each _ lines ([], f1)) as [r1 [n1 f2]] eqn:E1.
      intros [= <- <- _]. apply IH in E1. destruct r1; simpl; lia.
    + intros [= <- <- _]. simpl. lia.
Qed.

End Collect.

Lemma forallb_take {A} (P : A → bool) n (l : list A) :
  forallb P l = true → forallb P (take n l) = true.
Proof.
  revert n. induction l as [|x l IH]; intros [|n]; simpl; try done.
  rewrite !andb_true_iff. intros [? ?]. split; [done|by apply IH].
Qed.

Lemma forallb_drop {A} (P : A → bool) n (l : list A) :
  forallb P l = true → forallb P (drop n l) = true.
Proof.
  revert n. induction l as [|x l IH]; intros [|n]; simpl; try done.
  rewrite !andb_true_iff. intros [? ?]. by apply IH.
Qed.

Section CollectBlocks.
Variable natoms : nat.
Variable rec : string → M File Obj.

(** With enough well-formed coordinate lines, a loop over accepted lines
    completes; record [i] is built from block [i] of the file. *)
Lemma collect_valid lines : ∀ f,
  Forall (accepts natoms rec) lines →
  coords_ok (natoms * length lines) f = true →
  ∃ new,
    for_each (collect rec) lines ([], f)
      = (Ok tt, (new, drop (natoms * length lines) f))
    ∧ length new = length lines
    ∧ ∀ i line, lines !! i = Some line →
        ∃ o f', new !! i = Some o
                ∧ rec line (drop (natoms * i) f) = (Ok o, f').
Proof.
  induction lines as [|line lines IH]; intros f Hacc Hok.
  - exists []. simpl. rewrite Nat.mul_0_r, drop_0. unfold ret. done.
  - apply Forall_cons in Hacc as [[g Hg] Hacc]. simpl length in *.
    rewrite Nat.mul_succ_r, Nat.add_comm, coords_ok_add in Hok.
    apply andb_true_iff in Hok as [Hok1 Hok2].
    destruct (read_block_ok _ _ Hok1) as [c Hc].
    rewrite <- read_coords_block in Hc.
    destruct (IH _ Hacc Hok2) as (new & Hnew & Hlen & Hidx).
    exists (g c :: new). rewrite collect_step, Hg, Hc, Hnew.
    rewrite drop_drop, Nat.mul_succ_r, (Nat.add_comm (natoms * _)).
    split; [done|]. split; [simpl; lia|].
    intros [|i] l Hl; simpl in Hl.
    + injection Hl as <-. exists (g c), (drop natoms f).
      rewrite Nat.mul_0_r, drop_0, Hg, Hc. done.
    + destruct (Hidx i l Hl) as (o & f' & Ho & Hrec).
      exists o, f'. split; [done|].
      rewrite drop_drop in Hrec.
      by rewrite Nat.mul_succ_r, (Nat.add_comm (natoms * _)).
Qed.

(** With too few coordinate lines, the loop stops at the record whose
    block runs into the end of the file. *)
Lemma collect_exhausted lines : ∀ f,
  Forall (accepts natoms rec) lines →
  forallb coord_line_ok f = true →
  length f < natoms * length lines →
  ∃ new,
    for_each (collect rec) lines ([], f)
      = (Raise (ValueError (Broadcast 0 3)), (new, []))
    ∧ length new = length f / natoms.
Proof.
  induction lines as [|line lines IH]; intros f Hacc Hall Hlen.
  - simpl in Hlen. lia.
  - apply Forall_cons in Hacc as [[g Hg] Hacc]. simpl length in *.
    rewrite collect_step, Hg, read_coords_block.
    destruct (decide (natoms ≤ length f)) as [Hge|Hlt].
    + destruct (read_block_ok natoms f) as [c ->].
      { unfold coords_ok. rewrite bool_decide_eq_true_2 by done.
        by apply forallb_take. }
      destruct (IH (drop natoms f)) as (new & -> & Hnew).
      { done. } { by apply forallb_drop. } { rewrite length_drop. nia. }
      exists (g c :: new). split; [done|]. simpl. rewrite Hnew, length_drop.
      assert (natoms ≠ 0) by lia.
      replace (length f) with ((length f - natoms) + 1 * natoms) at 2 by lia.
      rewrite Nat.div_add by done. lia.
    + rewrite read_block_eof by (lia || done).
      exists []. split; [done|]. simpl. rewrite Nat.div_small; lia.
Qed.

End CollectBlocks.

(** ** The records of the two loops *)

Lemma min_record_ok natoms line f o f' :
  min_record natoms line f = (Ok o, f') → min_of_line natoms line f o.
Proof.
  unfold min_record, bind, min_of_line.
  destruct (read_coords natoms f) as [[c|e] f1]; [|done].
  destruct (split line) as [|t1 [|t2 [|t3 [|t4 [|t5 [|t6 [|t7 l]]]]]]];
    try done.
  unfold lift, to_float, ret. destruct (py_float t1) as [v|] eqn:Ev; [|done].
  intros [= <- <-]. by exists t1, v, c, f1.
Qed.

Lemma ts_record_ok natoms n line f o f' :
  ts_record natoms n line f = (Ok o, f') →
  ts_of_line natoms (index_of n) line f o.
Proof.
  unfold ts_record, bind, ts_of_line.
  destruct (read_coords natoms f) as [[c|e] f1]; [|done].
  destruct (split line)
    as [|t1 [|t2 [|t3 [|t4 [|t5 [|t6 [|t7 [|t8 [|t9 l]]]]]]]]]; try done.
  unfold lift, to_float, to_int, lookup_ordinal, ret.
  destruct (py_float t1) as [v|] eqn:Ev; [|done].
  destruct (py_int t4) as [k1|] eqn:E1; [|done].
  destruct (index_of n !! k1) as [a|] eqn:Ea; [|done].
  destruct (py_int t5) as [k2|] eqn:E2; [|done].
  destruct (index_of n !! k2) as [b|] eqn:Eb; [|done].
  intros [= <- <-]. exists t1, t4, t5, v, k1, k2, c, f1, a, b.
  by repeat split.
Qed.

Lemma ts_of_line_within natoms n line f o :
  ts_of_line natoms (index_of n) line f o → ts_within n o = true.
Proof.
  intros (? & ? & ? & e & k1 & k2 & c & ? & a & b & Hl).
  destruct Hl as (_ & _ & _ & _ & _ & _ & _ & Ha & Hb & ->).
  apply index_of_lookup in Ha, Hb. simpl.
  rewrite !bool_decide_eq_true_2 by lia. done.
Qed.

Lemma min_line_accepts natoms line :
  min_line_ok line = true → accepts natoms (min_record natoms) line.
Proof.
  unfold min_line_ok, accepts, builds_with, min_record, numeric.
  destruct (split line) as [|t1 [|t2 [|t3 [|t4 [|t5 [|t6 [|t7 l]]]]]]];
    try done.
  rewrite bool_decide_eq_true. intros [v Hv]. exists (Minimum v).
  intros f. unfold bind, lift, to_float, ret. rewrite Hv.
  by destruct (read_coords natoms f) as [[c|e] f'].
Qed.

Lemma ordinal_in_lookup n tok :
  ordinal_in n tok = true →
  ∃ k r, py_int tok = Some k ∧ index_of n !! k = Some r.
Proof.
  unfold ordinal_in. destruct (py_int tok) as [k|]; [|done].
  rewrite bool_decide_eq_true. intros Hk. exists k, (Z.to_nat (k - 1)).
  split; [done|]. by apply index_of_lookup.
Qed.

Lemma ts_line_accepts natoms n line :
  ts_line_ok n line = true → accepts natoms (ts_record natoms n) line.
Proof.
  unfold ts_line_ok, accepts, builds_with, ts_record, numeric.
  destruct (split line)
    as [|t1 [|t2 [|t3 [|t4 [|t5 [|t6 [|t7 [|t8 [|t9 l]]]]]]]]]; try done.
  rewrite !andb_true_iff, bool_decide_eq_true. intros [[[v Hv] H1] H2].
  apply ordinal_in_lookup in H1 as (k1 & a & Hk1 & Ha).
  apply ordinal_in_lookup in H2 as (k2 & b & Hk2 & Hb).
  exists (λ c, TransitionState v c a b). intros f.
  unfold bind, lift, to_float, to_int, lookup_ordinal, ret.
  rewrite Hv, Hk1, Ha, Hk2, Hb.
  by destruct (read_coords natoms f) as [[c|e] f'].
Qed.

Lemma forallb_accepts (ok : string → bool) natoms rec lines :
  (∀ line, ok line = true → accepts natoms rec line) →
  forallb ok lines = true → Forall (accepts natoms rec) lines.
Proof.
  intros Hok Hall. apply Forall_forall. intros line Hin. apply Hok.
  rewrite forallb_forall in Hall. apply Hall. by apply list_elem_of_In.
Qed.

(** ** The shape of the state at the end of a run *)

Lemma collected_minima natoms lines f r new f' :
  for_each (collect (min_record natoms)) lines ([], f) = (r, (new, f')) →
  forallb is_minimum new = true.
Proof.
  intros E. apply forallb_forall. intros o Hin.
  apply (collect_all _ (λ o, is_minimum o = true)) in E.
  - rewrite Forall_forall in E. apply E. by apply list_elem_of_In.
  - intros line g o' g' Hrec.
    apply min_record_ok in Hrec as (? & ? & ? & ? & _ & _ & _ & ->). done.
Qed.

Lemma collected_ts natoms n lines f r new f' :
  for_each (collect (ts_record natoms n)) lines ([], f) = (r, (new, f')) →
  forallb (ts_within n) new = true.
Proof.
  intros E. apply forallb_forall. intros o Hin.
  apply (collect_all _ (λ o, ts_within n o = true)) in E.
  - rewrite Forall_forall in E. apply E. by apply list_elem_of_In.
  - intros line g o' g' Hrec.
    by eapply ts_of_line_within, ts_record_ok.
Qed.

(** Whatever the files, a run ends in one of three states: inside the
    first loop, inside the second loop, or loaded. *)
Lemma run_cases natoms md em td et res st :
  run natoms md em td et = (res, st) →
  ∃ mins tss f,
    forallb is_minimum mins = true
    ∧ forallb (ts_within (length mins)) tss = true
    ∧ ((∃ e, res = Raise e ∧ tss = [] ∧ st = loading_minima mins f
             ∧ length mins < length md)
       ∨ (∃ e, res = Raise e ∧ st = loading_ts mins tss f
               ∧ length mins = length md ∧ length tss < length td)
       ∨ (res = Ok tt ∧ st = loaded mins tss f
          ∧ length mins = length md ∧ length tss = length td)).
Proof.
  rewrite run_collect.
  destruct (for_each _ md ([], em)) as [r1 [mins f1]] eqn:E1.
  pose proof (collected_minima _ _ _ _ _ _ E1) as Hmins.
  pose proof (collect_length _ _ _ _ _ _ E1) as Hl1.
  destruct r1 as [[]|e1].
  - destruct (for_each _ td ([], et)) as [r2 [tss f2]] eqn:E2.
    pose proof (collected_ts _ _ _ _ _ _ _ E2) as Htss.
    pose proof (collect_length _ _ _ _ _ _ E2) as Hl2.
    destruct r2 as [[]|e2]; intros [= <- <-]; exists mins, tss, f2;
      (split; [done|]); (split; [done|]).
    + right. right. done.
    + right. left. exists e2. done.
  - intros [= <- <-]. exists mins, [], f1. split; [done|]. split; [done|].
    left. exists e1. done.
Qed.

(** ** Traces *)

Lemma built_cons lo n :
  built lo (S n) = Construct lo :: Add lo :: built (S lo) n.
Proof. done. Qed.

Lemma first_phase_built n : ∀ lo t,
  first_phase (built lo n ++ Commit :: t) = built lo n.
Proof.
  induction n as [|n IH]; intros lo t; [done|].
  rewrite built_cons. simpl. by rewrite IH.
Qed.

Lemma elem_of_built ev lo n :
  ev ∈ built lo n ↔ ∃ r, lo ≤ r < lo + n ∧ (ev = Construct r ∨ ev = Add r).
Proof.
  revert lo. induction n as [|n IH]; intros lo.
  - split; [by intros ?%elem_of_nil|]. intros (r & ? & _). lia.
  - rewrite built_cons, !elem_of_cons, IH. split.
    + intros [->|[->|(r & ? & ?)]]; [exists lo|exists lo|exists r];
        (split; [lia|tauto]).
    + intros (r & Hr & Hev). destruct (decide (r = lo)) as [->|Hne].
      * destruct Hev; tauto.
      * right. right. exists r. split; [lia|done].
Qed.

Lemma count_commit_built lo n : count is_commit (built lo n) = 0.
Proof.
  revert lo. induction n as [|n IH]; intros lo; [done|].
  rewrite built_cons. unfold count in *. simpl. apply IH.
Qed.

Lemma count_app {A} (p : A → bool) l1 l2 :
  count p (l1 ++ l2) = count p l1 + count p l2.
Proof. unfold count. by rewrite List.filter_app, length_app. Qed.

Lemma count_all {A} (p : A → bool) l :
  forallb p l = true → count p l = length l.
Proof.
  unfold count. induction l as [|x l IH]; simpl; [done|].
  rewrite andb_true_iff. intros [-> ?]. simpl. f_equal. by apply IH.
Qed.

Lemma count_none {A} (p q : A → bool) l :
  (∀ x, q x = true → p x = false) → forallb q l = true → count p l = 0.
Proof.
  intros Hpq. unfold count. induction l as [|x l IH]; simpl; [done|].
  rewrite andb_true_iff. intros [Hx ?]. rewrite (Hpq x Hx). by apply IH.
Qed.

Lemma ts_within_is_ts n o : ts_within n o = true → is_ts o = true.
Proof. by destruct o. Qed.

Lemma ts_within_not_minimum n o : ts_within n o = true → is_minimum o = false.
Proof. by destruct o. Qed.

Lemma is_minimum_not_ts o : is_minimum o = true → is_ts o = false.
Proof. by destruct o. Qed.

Lemma forallb_lookup {A} (p : A → bool) (l : list A) i x :
  forallb p l = true → l !! i = Some x → p x = true.
Proof.
  rewrite forallb_forall. intros Hall Hx. apply Hall.
  apply list_elem_of_In. by eapply list_elem_of_lookup_2.
Qed.

Lemma minimum_lookup (mins : list Obj) i :
  forallb is_minimum mins = true → i < length mins →
  ∃ e c, mins !! i = Some (Minimum e c).
Proof.
  intros Hall Hi. destruct (lookup_lt_is_Some_2 mins i Hi) as [o Ho].
  pose proof (forallb_lookup _ _ _ _ Hall Ho) as Hm.
  destruct o; [eauto|done].
Qed.

(** The endpoints of a transition state found in the heap of the second
    phase. *)
Lemma ts_lookup_endpoints (mins tss : list Obj) r e c a b :
  forallb is_minimum mins = true →
  forallb (ts_within (length mins)) tss = true →
  (mins ++ tss) !! r = Some (TransitionState e c a b) →
  a < length mins ∧ b < length mins.
Proof.
  intros Hmins Htss Hr. apply lookup_app_Some in Hr as [Hr|[_ Hr]].
  - by pose proof (forallb_lookup _ _ _ _ Hmins Hr).
  - pose proof (forallb_lookup _ _ _ _ Htss Hr) as Hw. simpl in Hw.
    apply andb_true_iff in Hw as [Ha Hb].
    by rewrite !bool_decide_eq_true in Ha, Hb.
Qed.

Lemma phase1_minimum_intro st (mins tss : list Obj) x t :
  forallb is_minimum mins = true →
  heap st = mins ++ tss → minima st = index_of (length mins) →
  trace st = built 0 (length mins) ++ Commit :: t →
  x < length mins → phase1_minimum st x.
Proof.
  intros Hmins Hh Hm Ht Hx. unfold phase1_minimum.
  rewrite Hh, Hm, Ht, first_phase_built. split; [|split].
  - exists (Z.of_nat x + 1)%Z. by apply index_of_ordinal.
  - rewrite lookup_app_l by done. by apply minimum_lookup.
  - apply elem_of_built. exists x. split; [lia|by left].
Qed.

(** ** Referential integrity *)

(** C1.  At the end of a run, and in particular of a run that completed,
    the two endpoints of every [TransitionState] in the heap are
    references recorded in the [minima] index, they point to [Minimum]
    objects, and these were constructed before the first commit. *)
Theorem endpoints_in_index natoms md em td et res st r e c a b :
  run natoms md em td et = (res, st) →
  heap st !! r = Some (TransitionState e c a b) →
  phase1_minimum st a ∧ phase1_minimum st b.
Proof.
  intros Hrun Hr.
  destruct (run_cases _ _ _ _ _ _ _ Hrun)
    as (mins & tss & f & Hmins & Htss & Hcase).
  destruct Hcase as [(e' & _ & _ & -> & _)|[(e' & _ & -> & _)|(_ & -> & _)]].
  - simpl in Hr. by pose proof (forallb_lookup _ _ _ _ Hmins Hr).
  - destruct (ts_lookup_endpoints _ _ _ _ _ _ _ Hmins Htss Hr) as [Ha Hb].
    split; by eapply (phase1_minimum_intro _ mins tss).
  - destruct (ts_lookup_endpoints _ _ _ _ _ _ _ Hmins Htss Hr) as [Ha Hb].
    split; eapply (phase1_minimum_intro _ mins tss); try done;
      simpl; by rewrite <- app_assoc.
Qed.

(** ** The two commits *)

Lemma first_phase_no_commit n lo : first_phase (built lo n) = built lo n.
Proof.
  revert lo. induction n as [|n IH]; intros lo; [done|].
  rewrite built_cons. simpl. by rewrite IH.
Qed.

Lemma forallb_impl {A} (p q : A → bool) l :
  (∀ x, p x = true → q x = true) → forallb p l = true → forallb q l = true.
Proof.
  intros Hpq. rewrite !forallb_forall. intros Hall x Hin. by apply Hpq, Hall.
Qed.

Lemma first_phase_minimum (mins tss : list Obj) r :
  forallb is_minimum mins = true →
  Construct r ∈ built 0 (length mins) ∨ Add r ∈ built 0 (length mins) →
  ∃ e c, (mins ++ tss) !! r = Some (Minimum e c).
Proof.
  intros Hmins Hev.
  assert (r < length mins) as Hr.
  { destruct Hev as [Hev|Hev]; apply elem_of_built in Hev as (x & ? & Hx);
      destruct Hx as [[= ->]|[= ->]]; lia. }
  rewrite lookup_app_l by done. by apply minimum_lookup.
Qed.

(** C4.  Nothing but minima is constructed or added before the first
    commit, whether the run completes or not; a run that completes has
    committed exactly twice: its trace is the construction and staging of
    the minima, one per line of [min.data], a commit, the construction and
    staging of the transition states, one per line of [ts.data], and a
    commit. *)
Theorem two_commits natoms md em td et res st :
  run natoms md em td et = (res, st) →
  (∀ r, Construct r ∈ first_phase (trace st)
        ∨ Add r ∈ first_phase (trace st) →
        ∃ e c, heap st !! r = Some (Minimum e c))
  ∧ (res = Ok tt →
     ∃ mins tss,
       heap st = mins ++ tss
       ∧ forallb is_minimum mins = true ∧ forallb is_ts tss = true
       ∧ length mins = length md ∧ length tss = length td
       ∧ trace st = built 0 (length mins) ++ [Commit]
                      ++ built (length mins) (length tss) ++ [Commit]
       ∧ count is_commit (trace st) = 2).
Proof.
  intros Hrun.
  destruct (run_cases _ _ _ _ _ _ _ Hrun)
    as (mins & tss & f & Hmins & Htss & Hcase).
  destruct Hcase
    as [(e' & -> & -> & -> & _)|[(e' & -> & -> & _)|(_ & -> & Hn & Ht)]].
  - split; [|done]. intros r. simpl. rewrite first_phase_no_commit.
    intros Hev.
    destruct (first_phase_minimum mins [] r Hmins Hev) as (e & c & He).
    rewrite app_nil_r in He. eauto.
  - split; [|done]. intros r. simpl. rewrite first_phase_built.
    by apply first_phase_minimum.
  - split.
    + intros r. simpl. rewrite <- app_assoc. simpl.
      rewrite first_phase_built. by apply first_phase_minimum.
    + intros _. exists mins, tss. simpl. split; [done|]. split; [done|].
      split; [by eapply forallb_impl, Htss; apply ts_within_is_ts|].
      split; [done|]. split; [done|].
      rewrite <- app_assoc. simpl. split; [done|].
      rewrite count_app, count_commit_built.
      change (Commit :: ?l) with ([Commit] ++ l).
      by rewrite !count_app, count_commit_built.
Qed.

(** ** Runs on valid input *)

(** The first loop on well-formed minima files. *)
Lemma phase1_valid natoms md em :
  forallb min_line_ok md = true →
  coords_ok (natoms * length md) em = true →
  ∃ mins,
    for_each (collect (min_record natoms)) md ([], em)
      = (Ok tt, (mins, drop (natoms * length md) em))
    ∧ length mins = length md
    ∧ forallb is_minimum mins = true
    ∧ ∀ i line, md !! i = Some line →
        ∃ o, mins !! i = Some o
             ∧ min_of_line natoms line (drop (natoms * i) em) o.
Proof.
  intros Hlines Hcoords.
  destruct (collect_valid natoms (min_record natoms) md em)
    as (mins & Hloop & Hlen & Hidx); [|done|].
  { eapply forallb_accepts, Hlines. apply min_line_accepts. }
  exists mins. split; [done|]. split; [done|].
  split; [by eapply collected_minima|].
  intros i line Hline. destruct (Hidx i line Hline) as (o & f' & Ho & Hrec).
  exists o. split; [done|]. by eapply min_record_ok.
Qed.

(** The second loop on well-formed transition-state files. *)
Lemma phase2_valid natoms n td et :
  forallb (ts_line_ok n) td = true →
  coords_ok (natoms * length td) et = true →
  ∃ tss,
    for_each (collect (ts_record natoms n)) td ([], et)
      = (Ok tt, (tss, drop (natoms * length td) et))
    ∧ length tss = length td
    ∧ forallb (ts_within n) tss = true
    ∧ ∀ j line, td !! j = Some line →
        ∃ o, tss !! j = Some o
             ∧ ts_of_line natoms (index_of n) line (drop (natoms * j) et) o.
Proof.
  intros Hlines Hcoords.
  destruct (collect_valid natoms (ts_record natoms n) td et)
    as (tss & Hloop & Hlen & Hidx); [|done|].
  { eapply forallb_accepts, Hlines. apply ts_line_accepts. }
  exists tss. split; [done|]. split; [done|].
  split; [by eapply collected_ts|].
  intros j line Hline. destruct (Hidx j line Hline) as (o & f' & Ho & Hrec).
  exists o. split; [done|]. by eapply ts_record_ok.
Qed.

(** C2.  On well-formed minima files (six fields per summary line, the
    energy numeric; [natoms] lines of three numeric tokens per summary
    line) the first loop constructs and stages one [Minimum] per line of
    [min.data] and nothing else: the heap holds as many [Minimum] objects
    as the file has lines, the events before the first commit are their
    construction and staging, the index has that many entries, and for
    each line [i] (counted from 0) ordinal [i + 1] maps to reference [i],
    the [Minimum] built from the energy of that line and from block [i] of
    the coordinate file. *)
Theorem minima_count_and_index natoms md em td et :
  forallb min_line_ok md = true →
  coords_ok (natoms * length md) em = true →
  let st := (run natoms md em td et).2 in
  count is_minimum (heap st) = length md
  ∧ first_phase (trace st) = built 0 (length md)
  ∧ size (minima st) = length md
  ∧ ∀ i line, md !! i = Some line →
      ∃ o, heap st !! i = Some o
           ∧ min_of_line natoms line (drop (natoms * i) em) o
           ∧ minima st !! (Z.of_nat i + 1)%Z = Some i.
Proof.
  intros Hlines Hcoords.
  destruct (phase1_valid _ _ _ Hlines Hcoords)
    as (mins & Hloop & Hlen & Hmins & Hidx).
  rewrite run_collect, Hloop.
  destruct (for_each _ td ([], et)) as [r2 [tss f2]] eqn:E2.
  pose proof (collected_ts _ _ _ _ _ _ _ E2) as Htss.
  assert (count is_minimum (mins ++ tss) = length md) as Hcount.
  { rewrite count_app, (count_all _ mins Hmins).
    rewrite (count_none is_minimum (ts_within (length mins)) tss); [lia| |done].
    apply ts_within_not_minimum. }
  assert (∀ i line, md !! i = Some line →
    ∃ o, (mins ++ tss) !! i = Some o
         ∧ min_of_line natoms line (drop (natoms * i) em) o
         ∧ index_of (length mins) !! (Z.of_nat i + 1)%Z = Some i) as Hall.
  { intros i line Hline. destruct (Hidx i line Hline) as (o & Hi & Ho).
    pose proof (lookup_lt_Some _ _ _ Hi) as Hlt.
    exists o. split; [by rewrite lookup_app_l|].
    split; [done|by apply index_of_ordinal]. }
  destruct r2 as [[]|e2]; simpl.
  - rewrite <- app_assoc. simpl. rewrite first_phase_built, index_of_size.
    by rewrite Hlen in *.
  - rewrite first_phase_built, index_of_size. by rewrite Hlen in *.
Qed.

(** C3.  On well-formed input (minima files as above; eight fields per
    line of [ts.data], the energy numeric and both ordinals among those
    of the minima; [natoms] lines of three numeric tokens per line) the run
    completes, and the second loop has constructed and staged one
    [TransitionState] per line of [ts.data] and nothing else: the heap
    holds as many [TransitionState] objects as the file has lines, the
    trace lists their construction and staging between the two commits,
    and the object of line [j] (counted from 0) is built from the energy
    of that line, from block [j] of the coordinate file and from the two
    minima that the index holds for its ordinals. *)
Theorem ts_count natoms md em td et :
  forallb min_line_ok md = true →
  coords_ok (natoms * length md) em = true →
  forallb (ts_line_ok (length md)) td = true →
  coords_ok (natoms * length td) et = true →
  ∃ st,
    run natoms md em td et = (Ok tt, st)
    ∧ count is_ts (heap st) = length td
    ∧ trace st = built 0 (length md) ++ [Commit]
                   ++ built (length md) (length td) ++ [Commit]
    ∧ pending st = []
    ∧ durable st = seq 0 (length md + length td)
    ∧ ∀ j line, td !! j = Some line →
        ∃ o, heap st !! (length md + j) = Some o
             ∧ ts_of_line natoms (minima st) line (drop (natoms * j) et) o.
Proof.
  intros Hlines Hcoords Hts Htscoords.
  destruct (phase1_valid _ _ _ Hlines Hcoords)
    as (mins & Hloop & Hlen & Hmins & _).
  rewrite <- Hlen in Hts.
  destruct (phase2_valid _ _ _ _ Hts Htscoords)
    as (tss & Hloop2 & Hlen2 & Htss & Hidx).
  rewrite run_collect, Hloop, Hloop2. eexists. split; [done|]. simpl.
  split.
  { rewrite count_app, (count_none is_ts is_minimum mins); [|by destruct x|done].
    rewrite count_all; [done|].
    by eapply forallb_impl, Htss; apply ts_within_is_ts. }
  rewrite <- app_assoc, <- seq_app, Hlen, Hlen2. simpl.
  repeat (split; [done|]).
  intros j line Hline. destruct (Hidx j line Hline) as (o & Hj & Ho).
  exists o. split; [|by rewrite <- Hlen].
  rewrite <- Hlen, lookup_app_r by lia.
  by replace (length mins + j - length mins) with j by lia.
Qed.

(** ** One line of a summary file *)

Lemma read_fcoords_ok natoms st c f' :
  read_coords natoms (fcoords st) = (Ok c, f') →
  ∃ st', read_fcoords natoms st = (Ok c, st')
         ∧ heap st' = heap st ∧ pending st' = pending st
         ∧ durable st' = durable st ∧ trace st' = trace st
         ∧ minima st' = minima st ∧ mini st' = mini st.
Proof.
  intros Hc. unfold read_fcoords. rewrite Hc. eexists. by split.
Qed.

(** C10.  A line of [min.data] with exactly six fields whose first field
    converts to a float is accepted whatever its five other fields are:
    they are bound to names and never converted.  The [Minimum] built has
    the value of the first field as its energy; it is staged and recorded
    in the index under the running ordinal. *)
Theorem min_line_energy_only natoms st c f' line energy t2 t3 t4 t5 t6 e :
  read_coords natoms (fcoords st) = (Ok c, f') →
  split line = [energy; t2; t3; t4; t5; t6] →
  py_float energy = Some e →
  ∃ st',
    min_body natoms line st = (Ok tt, st')
    ∧ heap st' = heap st ++ [Minimum e c]
    ∧ pending st' = pending st ++ [length (heap st)]
    ∧ minima st' = <[mini st := length (heap st)]> (minima st)
    ∧ mini st' = (mini st + 1)%Z.
Proof.
  intros Hc Hsplit He.
  destruct (read_fcoords_ok _ _ _ _ Hc)
    as (st1 & Hst1 & Hh & Hp & _ & _ & Hm & Hi).
  unfold min_body, bind. rewrite Hst1, Hsplit.
  unfold lift, to_float. rewrite He.
  cbv beta iota delta [new session_add minima_store mini_incr modify].
  eexists. split; [done|]. simpl. by rewrite Hh, Hp, Hm, Hi.
Qed.

(** C5.  When the coordinate block has been read and the line of
    [ts.data] has eight fields whose energy and two ordinals convert,
    [ts_body] raises [KeyError] as soon as one of the two ordinals is not
    a key of [minima]; nothing is constructed or staged. *)
Theorem ts_body_lookup_error natoms st c f' line
    energy t2 t3 min1 min2 t6 t7 t8 e k1 k2 :
  read_coords natoms (fcoords st) = (Ok c, f') →
  split line = [energy; t2; t3; min1; min2; t6; t7; t8] →
  py_float energy = Some e →
  py_int min1 = Some k1 → py_int min2 = Some k2 →
  minima st !! k1 = None ∨ minima st !! k2 = None →
  ∃ k st',
    ts_body natoms line st = (Raise (KeyError k), st')
    ∧ (k = k1 ∨ k = k2) ∧ minima st !! k = None
    ∧ heap st' = heap st ∧ pending st' = pending st
    ∧ trace st' = trace st.
Proof.
  intros Hc Hsplit He Hk1 Hk2 Hmiss.
  destruct (read_fcoords_ok _ _ _ _ Hc)
    as (st1 & Hst1 & Hh & Hp & _ & Ht & Hm & _).
  unfold ts_body, bind. rewrite Hst1, Hsplit.
  unfold lift, to_float, to_int, minima_get. rewrite He, Hk1, Hm.
  destruct (minima st !! k1) as [a|] eqn:Ea.
  - rewrite Hk2, Hm. destruct Hmiss as [?|Hb]; [done|]. rewrite Hb.
    exists k2, st1. by repeat split; try right.
  - exists k1, st1. by repeat split; try left.
Qed.

Lemma min_body_value_error natoms st c f' line :
  read_coords natoms (fcoords st) = (Ok c, f') →
  (∃ w st', min_body natoms line st = (Raise (ValueError w), st'))
  ↔ length (split line) ≠ 6
    ∨ (∃ tok, split line !! 0 = Some tok ∧ py_float tok = None).
Proof.
  intros Hc. destruct (read_fcoords_ok _ _ _ _ Hc) as (st1 & Hst1 & _).
  unfold min_body, bind. rewrite Hst1.
  destruct (split line) as [|t1 [|t2 [|t3 [|t4 [|t5 [|t6 [|t7 l]]]]]]];
    try (split; [intros _; left; simpl; lia|intros _; by eexists _, _]).
  unfold lift, to_float. destruct (py_float t1) as [v|] eqn:Ev.
  - split; [by intros (w & st' & ?)|].
    intros [Hl|(tok & [= <-] & Hbad)]; [done|congruence].
  - split; [intros _; right; by exists t1|intros _; by eexists _, _].
Qed.

Lemma ts_body_value_error natoms st c f' line :
  read_coords natoms (fcoords st) = (Ok c, f') →
  (∃ w st', ts_body natoms line st = (Raise (ValueError w), st'))
  ↔ length (split line) ≠ 8
    ∨ (∃ tok, split line !! 0 = Some tok ∧ py_float tok = None)
    ∨ (∃ tok, split line !! 3 = Some tok ∧ py_int tok = None)
    ∨ (∃ t1 k1 t2, split line !! 3 = Some t1 ∧ py_int t1 = Some k1
         ∧ is_Some (minima st !! k1)
         ∧ split line !! 4 = Some t2 ∧ py_int t2 = None).
Proof.
  intros Hc.
  destruct (read_fcoords_ok _ _ _ _ Hc) as (st1 & Hst1 & _ & _ & _ & _ & Hm & _).
  unfold ts_body, bind. rewrite Hst1.
  destruct (split line)
    as [|t1 [|t2 [|t3 [|t4 [|t5 [|t6 [|t7 [|t8 [|t9 l]]]]]]]]];
    try (split; [intros _; left; simpl; lia|intros _; by eexists _, _]).
  unfold lift, to_float, to_int, minima_get. rewrite Hm. simpl.
  destruct (py_float t1) as [v|] eqn:Ev;
    [|split; [intros _; right; left; by exists t1|intros _; by eexists _, _]].
  destruct (py_int t4) as [k1|] eqn:E1;
    [|split; [intros _; right; right; left; by exists t4
             |intros _; by eexists _, _]].
  destruct (minima st !! k1) as [a|] eqn:Ea.
  - destruct (py_int t5) as [k2|] eqn:E2.
    + rewrite Hm. split.
      * intros (w & st' & Hr). by destruct (minima st !! k2).
      * intros [?|[(? & [= <-] & ?)|[(? & [= <-] & ?)|
          (? & ? & ? & _ & _ & _ & [= <-] & ?)]]]; (done || congruence).
    + split; [|intros _; by eexists _, _]. intros _. right. right. right.
      exists t4, k1, t5. rewrite Ea. by repeat split.
  - split; [by intros (w & st' & ?)|].
    intros [?|[(? & [= <-] & ?)|[(? & [= <-] & ?)|
      (? & ? & ? & [= <-] & Hk & Hs & _)]]]; try (done || congruence).
    rewrite E1 in Hk. injection Hk as <-. rewrite Ea in Hs.
    by destruct Hs.
Qed.

(** C7, as the script has it.  Once the coordinate block is read, a line
    of [min.data] raises [ValueError] exactly when it does not have six
    fields or its energy does not convert; a line of [ts.data] exactly
    when it does not have eight fields, or its energy does not convert, or
    its first ordinal does not convert, or its first ordinal is a key of
    [minima] and its second ordinal does not convert.  Frequency,
    point-group order and inertia components are never converted. *)
Theorem summary_line_value_error natoms st c f' line :
  read_coords natoms (fcoords st) = (Ok c, f') →
  ((∃ w st', min_body natoms line st = (Raise (ValueError w), st'))
   ↔ length (split line) ≠ 6
     ∨ (∃ tok, split line !! 0 = Some tok ∧ py_float tok = None))
  ∧ ((∃ w st', ts_body natoms line st = (Raise (ValueError w), st'))
     ↔ length (split line) ≠ 8
       ∨ (∃ tok, split line !! 0 = Some tok ∧ py_float tok = None)
       ∨ (∃ tok, split line !! 3 = Some tok ∧ py_int tok = None)
       ∨ (∃ t1 k1 t2, split line !! 3 = Some t1 ∧ py_int t1 = Some k1
            ∧ is_Some (minima st !! k1)
            ∧ split line !! 4 = Some t2 ∧ py_int t2 = None)).
Proof.
  intros Hc. split.
  - by eapply min_body_value_error.
  - by eapply ts_body_value_error.
Qed.

(** ** The contract of the coordinate reader *)

Lemma read_block_values n : ∀ f c f' j line,
  read_block n f = (Ok c, f') → j < n → f !! j = Some line →
  line_values line = Ok (take 3 (drop (3 * j) c)).
Proof.
  induction n as [|n IH]; intros f c f' j line; [lia|].
  cbn [read_block]. unfold bind, lift, ret.
  destruct f as [|l0 f]; cbn [readline]; [done|].
  destruct (line_values l0) as [t|e] eqn:Et; [|done].
  destruct (read_block n f) as [[b|e] f2] eqn:Eb; [|done].
  intros [= <- _] Hj Hline.
  assert (length t = 3) as Ht.
  { unfold line_values in Et. destruct (floats _); [|done].
    by apply triple_length in Et. }
  destruct j as [|j]; simpl in Hline.
  - injection Hline as <-. rewrite Nat.mul_0_r, drop_0, Et.
    by rewrite <- Ht, take_app_length.
  - replace (3 * S j) with (length t + 3 * j) by lia.
    rewrite <- drop_drop, drop_app_length. eapply IH; [done|lia|done].
Qed.

(** C8, as the script has it.  A call that returns has consumed exactly
    [natoms] lines and returns [3 * natoms] values, those of line [j] at
    positions [3 * j] to [3 * j + 2].  With [natoms] lines of three
    numeric tokens in the file, the call returns.  The call raises
    [ValueError] when one of the [natoms] lines it is to read has a number
    of tokens other than one and three, or has a token that does not
    convert. *)
Theorem read_coords_contract natoms f :
  (∀ c f', read_coords natoms f = (Ok c, f') →
     length c = 3 * natoms ∧ natoms ≤ length f ∧ f' = drop natoms f
     ∧ ∀ j line, j < natoms → f !! j = Some line →
         line_values line = Ok (take 3 (drop (3 * j) c)))
  ∧ (coords_ok natoms f = true →
     ∃ c, read_coords natoms f = (Ok c, drop natoms f))
  ∧ (∀ j line, j < natoms → f !! j = Some line →
       (length (split line) ≠ 1 ∧ length (split line) ≠ 3)
       ∨ (∃ tok, tok ∈ split line ∧ py_float tok = None) →
       ∃ w f', read_coords natoms f = (Raise (ValueError w), f')).
Proof.
  rewrite read_coords_block. split; [|split].
  - intros c f' Hr. split; [by eapply read_block_length|].
    destruct (read_block_consumes _ _ _ _ Hr) as [? ?].
    split; [done|]. split; [done|].
    intros j line Hj Hline. by eapply read_block_values.
  - apply read_block_ok.
  - intros j line Hj Hline Hbad.
    eapply read_block_bad_line; [done..|]. by apply line_values_bad.
Qed.

(** ** Runs that stop on an exception *)

(** C9.  When a coordinate file is too short for its summary file, all
    lines present being well formed, the run stops with the [ValueError]
    of an assignment of no value to a slice of three, raised by
    [read_coords] on the empty line read at end of file.  It stops on the
    record whose block is incomplete, record [length file / natoms]
    counted from 0: the records before it are built and staged, none after
    it is.  This holds for the minima (first part) and for the transition
    states (second part). *)
Theorem coords_exhausted natoms md em td et :
  (forallb min_line_ok md = true →
   forallb coord_line_ok em = true →
   length em < natoms * length md →
   ∃ st,
     run natoms md em td et = (Raise (ValueError (Broadcast 0 3)), st)
     ∧ length (heap st) = length em / natoms
     ∧ pending st = seq 0 (length em / natoms)
     ∧ durable st = [] ∧ fcoords st = [])
  ∧ (forallb min_line_ok md = true →
     coords_ok (natoms * length md) em = true →
     forallb (ts_line_ok (length md)) td = true →
     forallb coord_line_ok et = true →
     length et < natoms * length td →
     ∃ st,
       run natoms md em td et = (Raise (ValueError (Broadcast 0 3)), st)
       ∧ length (heap st) = length md + length et / natoms
       ∧ pending st = seq (length md) (length et / natoms)
       ∧ durable st = seq 0 (length md) ∧ fcoords st = []).
Proof.
  split.
  - intros Hlines Hall Hshort.
    destruct (collect_exhausted natoms (min_record natoms) md em)
      as (mins & Hloop & Hlen); [|done..|].
    { eapply forallb_accepts, Hlines. apply min_line_accepts. }
    rewrite run_collect, Hloop. eexists. split; [done|]. simpl.
    by rewrite Hlen.
  - intros Hlines Hcoords Hts Hall Hshort.
    destruct (phase1_valid _ _ _ Hlines Hcoords)
      as (mins & Hloop & Hlen & _).
    destruct (collect_exhausted natoms (ts_record natoms (length mins)) td et)
      as (tss & Hloop2 & Hlen2); [|done..|].
    { rewrite Hlen. eapply forallb_accepts, Hts. apply ts_line_accepts. }
    rewrite run_collect, Hloop, Hloop2. eexists. split; [done|]. simpl.
    by rewrite length_app, Hlen2, Hlen.
Qed.

(** C6, as the script has it.  Let the minima files and the lines of
    [ts.data] before some line be well formed, and let that line have
    eight fields, a numeric energy, its coordinate block, and two ordinals
    that convert, one of which is not between 1 and the number of minima.
    Then the run stops at that line with [KeyError] on the first such
    ordinal.  The transition states of the lines before it are in the
    heap and staged; the one of that line and of the lines after it are
    not built; only the minima are durable. *)
Theorem lookup_failure natoms md em td1 line td2 et
    energy t2 t3 min1 min2 t6 t7 t8 k1 k2 :
  forallb min_line_ok md = true →
  coords_ok (natoms * length md) em = true →
  forallb (ts_line_ok (length md)) td1 = true →
  coords_ok (natoms * S (length td1)) et = true →
  split line = [energy; t2; t3; min1; min2; t6; t7; t8] →
  numeric energy = true →
  py_int min1 = Some k1 → py_int min2 = Some k2 →
  ¬ (1 ≤ k1 ≤ Z.of_nat (length md))%Z ∨ ¬ (1 ≤ k2 ≤ Z.of_nat (length md))%Z →
  ∃ k st,
    run natoms md em (td1 ++ line :: td2) et = (Raise (KeyError k), st)
    ∧ (k = k1 ∨ k = k2) ∧ minima st !! k = None
    ∧ length (heap st) = length md + length td1
    ∧ count is_ts (heap st) = length td1
    ∧ pending st = seq (length md) (length td1)
    ∧ durable st = seq 0 (length md)
    ∧ count is_commit (trace st) = 1.
Proof.
  intros Hlines Hcoords Hts Htscoords Hsplit He Hk1 Hk2 Hout.
  destruct (phase1_valid _ _ _ Hlines Hcoords)
    as (mins & Hloop & Hlen & Hmins & _).
  rewrite Nat.mul_succ_r, coords_ok_add in Htscoords.
  apply andb_true_iff in Htscoords as [Hc1 Hc2].
  destruct (collect_valid natoms (ts_record natoms (length mins)) td1 et)
    as (tss & Hloop1 & Hlen1 & _); [|done|].
  { rewrite Hlen. eapply forallb_accepts, Hts. apply ts_line_accepts. }
  pose proof (collected_ts _ _ _ _ _ _ _ Hloop1) as Htss.
  destruct (read_block_ok _ _ Hc2) as [c Hc].
  rewrite <- read_coords_block in Hc.
  apply bool_decide_eq_true in He as [e He].
  assert (∃ k, (k = k1 ∨ k = k2) ∧ index_of (length mins) !! k = None
    ∧ ts_record natoms (length mins) line (drop (natoms * length td1) et)
      = (Raise (KeyError k), drop natoms (drop (natoms * length td1) et)))
    as (k & Hk & Hnone & Hrec).
  { unfold ts_record, bind. rewrite Hc, Hsplit.
    unfold lift, to_float, to_int, lookup_ordinal. rewrite He, Hk1.
    destruct (index_of (length mins) !! k1) as [a|] eqn:Ea.
    - rewrite Hk2. apply index_of_lookup in Ea as [Hin _].
      destruct Hout as [Hout|Hout]; [rewrite Hlen in Hin; done|].
      rewrite <- Hlen in Hout. apply index_of_none in Hout.
      rewrite Hout. exists k2. split; [by right|done].
    - exists k1. split; [by left|done]. }
  rewrite run_collect, Hloop, (collect_app _ _ _ _ _ _ Hloop1).
  rewrite collect_step, Hrec, app_nil_r.
  exists k. eexists. split; [done|]. simpl.
  split; [done|]. split; [done|]. split; [by rewrite length_app, Hlen, Hlen1|].
  split.
  { rewrite count_app, (count_none is_ts is_minimum mins);
      [|by destruct x|done].
    rewrite count_all; [done|].
    by eapply forallb_impl, Htss; apply ts_within_is_ts. }
  rewrite Hlen, Hlen1. split; [done|]. split; [done|].
  change (Commit :: ?l) with ([Commit] ++ l).
  by rewrite !count_app, !count_commit_built.
Qed.

(** * Further properties of the script *)

(** ** The reader and the lines it does not read *)

Lemma read_block_app n : ∀ f g,
  n ≤ length f →
  read_block n (f ++ g) = let '(r, f') := read_block n f in (r, f' ++ g).
Proof.
  induction n as [|n IH]; intros f g Hn; [done|].
  destruct f as [|l0 f]; simpl in Hn; [lia|].
  cbn [read_block app]. unfold bind, lift, ret. cbn [readline].
  destruct (line_values l0) as [t|e]; [|done].
  rewrite IH by lia. by destruct (read_block n f) as [[c|e] f'].
Qed.

Lemma read_coords_app_ok natoms f g c f' :
  read_coords natoms f = (Ok c, f') →
  read_coords natoms (f ++ g) = (Ok c, f' ++ g).
Proof.
  rewrite !read_coords_block. intros Hr.
  destruct (read_block_consumes _ _ _ _ Hr) as [Hn _].
  by rewrite read_block_app, Hr.
Qed.

(** X1.  [read_coords] looks at the first [natoms] lines only: whatever
    follows them in the file has no influence on the outcome and is left
    in the file, after a return and after an exception alike. *)
Theorem read_coords_surplus natoms f g :
  natoms ≤ length f →
  read_coords natoms (f ++ g) =
    let '(r, f') := read_coords natoms f in (r, f' ++ g).
Proof. intros Hn. rewrite !read_coords_block. by apply read_block_app. Qed.

Lemma read_block_add n m : ∀ f,
  read_block (n + m) f =
    (c1 <- read_block n ;; c2 <- read_block m ;; ret (c1 ++ c2)) f.
Proof.
  induction n as [|n IH]; intros f.
  - cbn [Nat.add read_block]. unfold bind, ret.
    by destruct (read_block m f) as [[c|e] f'].
  - cbn [Nat.add read_block]. unfold bind, lift, ret in *.
    destruct (readline f) as [[l|e] f1]; [|done].
    destruct (line_values l) as [t|e]; [|done].
    rewrite IH. destruct (read_block n f1) as [[c1|e] f2]; [|done].
    destruct (read_block m f2) as [[c2|e] f3]; [|done].
    by rewrite app_assoc.
Qed.

(** X2.  Reading [n + m] atoms in one call is reading [n] atoms and then
    [m] atoms from where the first call stopped, the two vectors put end
    to end; the first exception met is the same. *)
Theorem read_coords_seq n m f :
  read_coords (n + m) f =
    (c1 <- read_coords n ;; c2 <- read_coords m ;; ret (c1 ++ c2)) f.
Proof.
  rewrite read_coords_block, read_block_add. unfold bind.
  rewrite <- (read_coords_block n f).
  destruct (read_coords n f) as [[c1|e] f1]; [|done].
  by rewrite <- (read_coords_block m f1).
Qed.

(** X3.  In the vector that [read_coords] returns, the three entries of
    atom [j] are the converted tokens of line [j]: the three tokens in
    order, or the single token three times. *)
Theorem read_coords_values natoms f c f' j line :
  read_coords natoms f = (Ok c, f') →
  j < natoms → f !! j = Some line →
  ∃ vals,
    floats (split line) = Ok vals
    ∧ ((∃ v, vals = [v] ∧ take 3 (drop (3 * j) c) = [v; v; v])
       ∨ (length vals = 3 ∧ take 3 (drop (3 * j) c) = vals)).
Proof.
  rewrite read_coords_block. intros Hr Hj Hl.
  pose proof (read_block_values _ _ _ _ _ _ Hr Hj Hl) as Hv.
  unfold line_values in Hv.
  destruct (floats (split line)) as [vals|]; [|done].
  exists vals. split; [done|].
  destruct vals as [|a [|b [|d [|? ?]]]]; cbn [triple] in Hv; try done.
  - left. exists a. split; [done|]. congruence.
  - right. split; [done|]. congruence.
Qed.

Lemma read_block_blank n : ∀ f j,
  j < n →
  forallb coord_line_ok (take j f) = true →
  length f = j ∨ (∃ line, f !! j = Some line ∧ split line = []) →
  read_block n f = (Raise (ValueError (Broadcast 0 3)), drop (S j) f).
Proof.
  induction n as [|n IH]; intros f j Hj Hok Hend; [lia|].
  destruct j as [|j].
  - destruct f as [|l f]; [done|].
    destruct Hend as [?|(line & [= <-] & Hs)]; [done|].
    cbn [read_block]. unfold bind, lift. cbn [readline].
    unfold line_values. by rewrite Hs.
  - destruct f as [|l f]; [by destruct Hend as [?|(line & ? & _)]|].
    simpl in Hok. apply andb_true_iff in Hok as [Hl Hok].
    destruct (coord_line_values l Hl) as (a & b & c & Hv).
    cbn [read_block]. unfold bind, lift. cbn [readline].
    rewrite Hv, (IH f j); [done|lia|done|].
    destruct Hend as [Hlen|Hline]; [left; simpl in Hlen; lia|by right].
Qed.

(** X4.  A blank line inside a block and the end of the file inside a
    block are the same to [read_coords]: after [j] well-formed lines,
    either stops the call with the [ValueError] of the assignment of no
    value to three entries. *)
Theorem read_coords_blank_or_eof natoms f j :
  j < natoms →
  forallb coord_line_ok (take j f) = true →
  length f = j ∨ (∃ line, f !! j = Some line ∧ split line = []) →
  read_coords natoms f
    = (Raise (ValueError (Broadcast 0 3)), drop (S j) f).
Proof. rewrite read_coords_block. apply read_block_blank. Qed.

(** ** One line, on any state *)

Lemma min_body_failure natoms line st e st' :
  min_body natoms line st = (Raise e, st') →
  heap st' = heap st ∧ pending st' = pending st ∧ durable st' = durable st
  ∧ trace st' = trace st ∧ minima st' = minima st ∧ mini st' = mini st.
Proof.
  unfold min_body, bind, read_fcoords.
  destruct (read_coords natoms (fcoords st)) as [[c|e0] f1];
    [|by intros [= <- <-]].
  destruct (split line) as [|t1 [|t2 [|t3 [|t4 [|t5 [|t6 [|t7 l]]]]]]];
    try by intros [= <- <-].
  unfold lift, to_float. destruct (py_float t1) as [v|];
    [done|by intros [= <- <-]].
Qed.

Lemma ts_body_failure natoms line st e st' :
  ts_body natoms line st = (Raise e, st') →
  heap st' = heap st ∧ pending st' = pending st ∧ durable st' = durable st
  ∧ trace st' = trace st ∧ minima st' = minima st ∧ mini st' = mini st.
Proof.
  unfold ts_body, bind, read_fcoords.
  destruct (read_coords natoms (fcoords st)) as [[c|e0] f1];
    [|by intros [= <- <-]].
  destruct (split line)
    as [|t1 [|t2 [|t3 [|t4 [|t5 [|t6 [|t7 [|t8 [|t9 l]]]]]]]]];
    try by intros [= <- <-].
  unfold lift, to_float, to_int, minima_get. cbn [minima].
  destruct (py_float t1) as [v|]; [|by intros [= <- <-]].
  destruct (py_int t4) as [k1|]; [|by intros [= <- <-]].
  destruct (minima st !! k1) as [a|]; [|by intros [= <- <-]].
  destruct (py_int t5) as [k2|]; [|by intros [= <- <-]]. cbn [minima].
  destruct (minima st !! k2) as [b|]; [done|by intros [= <- <-]].
Qed.

(** X5.  A line that raises leaves no trace of itself: whether it is a
    line of [min.data] or of [ts.data], and whatever the exception, the
    heap, the session, the trace, the index and the counter are as before
    the line; only the position in the coordinate file may have moved. *)
Theorem line_failure_frame natoms line st e st' :
  min_body natoms line st = (Raise e, st')
  ∨ ts_body natoms line st = (Raise e, st') →
  heap st' = heap st ∧ pending st' = pending st ∧ durable st' = durable st
  ∧ trace st' = trace st ∧ minima st' = minima st ∧ mini st' = mini st.
Proof.
  intros [Hr|Hr]; [by eapply min_body_failure|by eapply ts_body_failure].
Qed.


(** ** Every run *)

Lemma built_app lo n m : built lo n ++ built (lo + n) m = built lo (n + m).
Proof. unfold built. by rewrite seq_app, flat_map_app. Qed.

Lemma filter_built lo n :
  List.filter (λ ev, negb (is_commit ev)) (built lo n) = built lo n.
Proof.
  revert lo. induction n as [|n IH]; intros lo; [done|].
  rewrite built_cons. simpl. by rewrite IH.
Qed.

Lemma filter_all {A} (p : A → bool) l :
  forallb p l = true → List.filter p l = l.
Proof.
  induction l as [|x l IH]; simpl; [done|].
  rewrite andb_true_iff. intros [-> ?]. f_equal. by apply IH.
Qed.

Lemma filter_none {A} (p q : A → bool) l :
  (∀ x, q x = true → p x = false) → forallb q l = true →
  List.filter p l = [].
Proof.
  intros Hpq. induction l as [|x l IH]; simpl; [done|].
  rewrite andb_true_iff. intros [Hx ?]. rewrite (Hpq x Hx). by apply IH.
Qed.

(** X7.  At the end of every run, completed or not, every object
    constructed so far has been added to the session exactly once, in the
    order of construction: the durable references followed by the pending
    ones are [0, 1, ..., length heap - 1], and the trace without its
    commits is the construction of each object followed at once by its
    addition. *)
Theorem session_holds_heap natoms md em td et res st :
  run natoms md em td et = (res, st) →
  durable st ++ pending st = seq 0 (length (heap st))
  ∧ List.filter (λ ev, negb (is_commit ev)) (trace st)
    = built 0 (length (heap st)).
Proof.
  intros Hrun.
  destruct (run_cases _ _ _ _ _ _ _ Hrun)
    as (mins & tss & f & _ & _ & Hcase).
  destruct Hcase
    as [(e' & _ & _ & -> & _)|[(e' & _ & -> & _)|(_ & -> & _)]]; simpl.
  - by rewrite filter_built.
  - rewrite length_app, seq_app, List.filter_app. simpl.
    by rewrite !filter_built, built_app.
  - rewrite app_nil_r, length_app, seq_app, !List.filter_app. simpl.
    by rewrite app_nil_r, !filter_built, built_app.
Qed.

(** X8.  At the end of every run the keys of [minima] are the ordinals
    from 1 to [mini - 1] and no other integer (0 and the negative
    integers are not keys), ordinal [k] maps to reference [k - 1], and
    [mini] is one more than the number of [Minimum] objects built. *)
Theorem index_contiguous natoms md em td et res st :
  run natoms md em td et = (res, st) →
  (∀ k r, minima st !! k = Some r
          ↔ (1 ≤ k < mini st)%Z ∧ r = Z.to_nat (k - 1))
  ∧ mini st = (Z.of_nat (count is_minimum (heap st)) + 1)%Z.
Proof.
  intros Hrun.
  destruct (run_cases _ _ _ _ _ _ _ Hrun)
    as (mins & tss & f & Hmins & Htss & Hcase).
  assert (count is_minimum (mins ++ tss) = length mins) as Hcount.
  { rewrite count_app, (count_all _ mins Hmins).
    rewrite (count_none is_minimum (ts_within (length mins)) tss); [lia| |done].
    apply ts_within_not_minimum. }
  assert (∀ k r, index_of (length mins) !! k = Some r
    ↔ (1 ≤ k < Z.of_nat (length mins) + 1)%Z ∧ r = Z.to_nat (k - 1)) as Hidx.
  { intros k r. rewrite index_of_lookup. split; intros [? ?]; split; lia. }
  destruct Hcase
    as [(e' & _ & -> & -> & _)|[(e' & _ & -> & _)|(_ & -> & _)]]; simpl;
    try rewrite Hcount; try done.
  rewrite app_nil_r in Hcount. by rewrite Hcount.
Qed.


Lemma collect_raise rec lines : ∀ f e new f',
  for_each (collect rec) lines ([], f) = (Raise e, (new, f')) →
  ∃ line f0, line ∈ lines ∧ rec line f0 = (Raise e, f').
Proof.
  induction lines as [|line lines IH]; intros f e new f'; [done|].
  rewrite collect_step. destruct (rec line f) as [[o|e0] f1] eqn:Er.
  - destruct (for_each _ lines ([], f1)) as [r1 [n1 f2]] eqn:E1.
    intros [= -> _ ->]. destruct (IH _ _ _ _ E1) as (l & f0 & Hin & Hr).
    exists l, f0. split; [by apply elem_of_cons; right|done].
  - intros [= <- _ <-]. exists line, f. split; [apply elem_of_cons; by left|done].
Qed.

Lemma read_coords_error natoms f e f' :
  read_coords natoms f = (Raise e, f') → ∃ w, e = ValueError w.
Proof. rewrite read_coords_block. apply read_block_error. Qed.

Lemma min_record_error natoms line f e f' :
  min_record natoms line f = (Raise e, f') → ∃ w, e = ValueError w.
Proof.
  unfold min_record, bind.
  destruct (read_coords natoms f) as [[c|e0] f1] eqn:Ec.
  - destruct (split line) as [|t1 [|t2 [|t3 [|t4 [|t5 [|t6 [|t7 l]]]]]]];
      try (intros [= <- _]; eauto).
    unfold lift, to_float. destruct (py_float t1); [done|].
    intros [= <- _]. eauto.
  - intros [= <- _]. by eapply read_coords_error.
Qed.

Lemma ts_record_key_error natoms n line f k f' :
  ts_record natoms n line f = (Raise (KeyError k), f') →
  index_of n !! k = None.
Proof.
  unfold ts_record, bind.
  destruct (read_coords natoms f) as [[c|e0] f1] eqn:Ec.
  - destruct (split line)
      as [|t1 [|t2 [|t3 [|t4 [|t5 [|t6 [|t7 [|t8 [|t9 l]]]]]]]]]; try done.
    unfold lift, to_float, to_int, lookup_ordinal.
    destruct (py_float t1); [|done]. destruct (py_int t4) as [k1|]; [|done].
    destruct (index_of n !! k1) as [a|] eqn:Ea; [|by intros [= <- _]].
    destruct (py_int t5) as [k2|]; [|done].
    destruct (index_of n !! k2) as [b|] eqn:Eb; [done|by intros [= <- _]].
  - intros [= -> _]. by apply read_coords_error in Ec as [w ?].
Qed.

(** X10.  A [KeyError] can only come from the second loop.  When a run
    stops on [KeyError k], the minima are all durable, one per line of
    [min.data], exactly one commit has been made, and [k] is an integer
    that is not between 1 and the number of lines of [min.data]; a run
    that stops in the first loop stops on a [ValueError]. *)
Theorem key_error_origin natoms md em td et k st :
  run natoms md em td et = (Raise (KeyError k), st) →
  count is_commit (trace st) = 1
  ∧ durable st = seq 0 (length md)
  ∧ minima st !! k = None
  ∧ ¬ (1 ≤ k ≤ Z.of_nat (length md))%Z.
Proof.
  rewrite run_collect.
  destruct (for_each _ md ([], em)) as [r1 [mins f1]] eqn:E1.
  pose proof (collect_length _ _ _ _ _ _ E1) as Hl1.
  destruct r1 as [[]|e1].
  - destruct (for_each _ td ([], et)) as [r2 [tss f2]] eqn:E2.
    destruct r2 as [[]|e2]; [done|]. intros [= -> <-].
    destruct (collect_raise _ _ _ _ _ _ E2) as (line & f0 & _ & Hr).
    apply ts_record_key_error in Hr. simpl. rewrite <- Hl1.
    split; [|split; [done|split; [done|by apply index_of_none]]].
    change (Commit :: ?l) with ([Commit] ++ l).
    by rewrite !count_app, !count_commit_built.
  - intros [= -> <-].
    destruct (collect_raise _ _ _ _ _ _ E1) as (line & f0 & _ & Hr).
    by apply min_record_error in Hr as [w ?].
Qed.

(** X11.  With an empty [min.data] the run completes exactly when
    [ts.data] is empty too: no line of [ts.data] can name a minimum.  The
    run on two empty summary files commits twice with an empty session
    and reads neither coordinate file. *)
Theorem empty_minima natoms em td et st :
  run natoms [] em td et = (Ok tt, st)
  ↔ td = []
    ∧ st = {| heap := []; pending := []; durable := [];
              trace := [Commit; Commit]; minima := ∅; mini := 1;
              fcoords := et |}.
Proof.
  split.
  - rewrite run_collect. cbn [for_each]. unfold ret. cbn [length].
    destruct td as [|line td]; [by intros [= <-]|].
    rewrite collect_step.
    destruct (ts_record natoms 0 line et) as [[o|e] f1] eqn:Er.
    + apply ts_record_ok in Er.
      destruct Er as (? & ? & ? & ? & k1 & ? & ? & ? & a & ? & Er).
      destruct Er as (_ & _ & _ & _ & _ & _ & _ & Ha & _). done.
    + done.
  - intros [-> ->]. done.
Qed.

Lemma collect_surplus rec lines :
  (∀ line f g o f', rec line f = (Ok o, f') →
                    rec line (f ++ g) = (Ok o, f' ++ g)) →
  ∀ f g new f',
    for_each (collect rec) lines ([], f) = (Ok tt, (new, f')) →
    for_each (collect rec) lines ([], f ++ g) = (Ok tt, (new, f' ++ g)).
Proof.
  intros Hrec. induction lines as [|line lines IH]; intros f g new f'.
  - simpl. unfold ret. by intros [= <- <-].
  - rewrite !collect_step. destruct (rec line f) as [[o|e] f1] eqn:Er; [|done].
    rewrite (Hrec _ _ g _ _ Er).
    destruct (for_each _ lines ([], f1)) as [r1 [n1 f2]] eqn:E1.
    intros [= -> <- <-]. by rewrite (IH _ g _ _ E1).
Qed.

Lemma min_record_surplus natoms line f g o f' :
  min_record natoms line f = (Ok o, f') →
  min_record natoms line (f ++ g) = (Ok o, f' ++ g).
Proof.
  unfold min_record, bind.
  destruct (read_coords natoms f) as [[c|e0] f1] eqn:Ec; [|done].
  rewrite (read_coords_app_ok _ _ g _ _ Ec).
  destruct (split line) as [|t1 [|t2 [|t3 [|t4 [|t5 [|t6 [|t7 l]]]]]]];
    try done.
  unfold lift, to_float, ret. destruct (py_float t1); [|done].
  by intros [= <- <-].
Qed.

Lemma ts_record_surplus natoms n line f g o f' :
  ts_record natoms n line f = (Ok o, f') →
  ts_record natoms n line (f ++ g) = (Ok o, f' ++ g).
Proof.
  unfold ts_record, bind.
  destruct (read_coords natoms f) as [[c|e0] f1] eqn:Ec; [|done].
  rewrite (read_coords_app_ok _ _ g _ _ Ec).
  destruct (split line)
    as [|t1 [|t2 [|t3 [|t4 [|t5 [|t6 [|t7 [|t8 [|t9 l]]]]]]]]]; try done.
  unfold lift, to_float, to_int, lookup_ordinal, ret.
  destruct (py_float t1); [|done]. destruct (py_int t4) as [k1|]; [|done].
  destruct (index_of n !! k1); [|done].
  destruct (py_int t5) as [k2|]; [|done].
  destruct (index_of n !! k2); [|done].
  by intros [= <- <-].
Qed.

(** X12.  Lines in excess at the end of either coordinate file go
    unnoticed: a run that completes still completes when lines are
    appended to [extractedmin] and to [extractedts], with the same heap,
    session, trace and index; the excess of [extractedts] is left unread
    in the file. *)
Theorem surplus_coordinates_ignored natoms md em td et x y st :
  run natoms md em td et = (Ok tt, st) →
  ∃ st',
    run natoms md (em ++ x) td (et ++ y) = (Ok tt, st')
    ∧ heap st' = heap st ∧ pending st' = pending st
    ∧ durable st' = durable st ∧ trace st' = trace st
    ∧ minima st' = minima st ∧ mini st' = mini st
    ∧ fcoords st' = fcoords st ++ y.
Proof.
  rewrite !run_collect.
  destruct (for_each _ md ([], em)) as [r1 [mins f1]] eqn:E1.
  destruct r1 as [[]|e1]; [|done].
  rewrite (collect_surplus _ _ (min_record_surplus natoms) _ x _ _ E1).
  destruct (for_each _ td ([], et)) as [r2 [tss f2]] eqn:E2.
  destruct r2 as [[]|e2]; [|done].
  rewrite (collect_surplus _ _ (ts_record_surplus natoms (length mins))
             _ y _ _ E2).
  intros [= <-]. eexists. split; [done|]. done.
Qed.

(** X13.  What the first loop leaves does not depend on the
    transition-state files: two runs on the same [min.data] and
    [extractedmin] end with the same index, the same counter, the same
    events before the first commit and the same [Minimum] objects in the
    heap. *)
Theorem minima_phase_independent natoms md em td et td' et' :
  let s := (run natoms md em td et).2 in
  let s' := (run natoms md em td' et').2 in
  minima s = minima s' ∧ mini s = mini s'
  ∧ first_phase (trace s) = first_phase (trace s')
  ∧ List.filter is_minimum (heap s) = List.filter is_minimum (heap s').
Proof.
  rewrite !run_collect.
  destruct (for_each _ md ([], em)) as [r1 [mins f1]] eqn:E1.
  pose proof (collected_minima _ _ _ _ _ _ E1) as Hmins.
  destruct r1 as [[]|e1]; [|done].
  assert (∀ tss, forallb (ts_within (length mins)) tss = true →
    List.filter is_minimum (mins ++ tss) = mins) as Hf.
  { intros tss Htss. rewrite List.filter_app, (filter_all _ _ Hmins).
    rewrite (filter_none is_minimum (ts_within (length mins)) tss);
      [by rewrite app_nil_r| |done].
    apply ts_within_not_minimum. }
  destruct (for_each _ td ([], et)) as [r2 [tss f2]] eqn:E2.
  destruct (for_each _ td' ([], et')) as [r2' [tss' f2']] eqn:E2'.
  pose proof (collected_ts _ _ _ _ _ _ _ E2) as Htss.
  pose proof (collected_ts _ _ _ _ _ _ _ E2') as Htss'.
  destruct r2 as [[]|e2], r2' as [[]|e2']; simpl;
    rewrite <- ?app_assoc; simpl;
    rewrite !first_phase_built, (Hf _ Htss), (Hf _ Htss'); done.
Qed.

(** X14.  When the first loop raises, the transition-state files are not
    read: the run ends in the same way whatever [ts.data] and
    [extractedts] are. *)
Theorem first_loop_failure_final natoms md em td et td' et' e st :
  run natoms md em td et = (Raise e, st) →
  count is_commit (trace st) = 0 →
  run natoms md em td' et' = (Raise e, st).
Proof.
  rewrite !run_collect.
  destruct (for_each _ md ([], em)) as [r1 [mins f1]] eqn:E1.
  destruct r1 as [[]|e1]; [|done].
  destruct (for_each _ td ([], et)) as [r2 [tss f2]] eqn:E2.
  destruct r2 as [[]|e2]; [done|]. intros [= <- <-]. simpl.
  change (Commit :: ?l) with ([Commit] ++ l).
  rewrite !count_app, !count_commit_built. done.
Qed.

End Properties.

(** * The properties on the sample files *)

Import Decimal Sample.
Open Scope string_scope.
Open Scope list_scope.
Open Scope nat_scope.

(** The sample run completes; its transition state joins references 0
    and 1. *)
Lemma endpoints_in_index_witness :
  let st := (run (H := decimal) 2 min_data extractedmin ts_data extractedts).2
  in phase1_minimum st 0 ∧ phase1_minimum st 1.
Proof.
  apply (endpoints_in_index (H := decimal) 2 min_data extractedmin ts_data
           extractedts (Ok tt) _ 2 ((-90)%Z, 1)
           [(5%Z, 1); (0%Z, 1); (0%Z, 1); (5%Z, 1); (5%Z, 1); (0%Z, 1)] 0 1).
  - apply surjective_pairing.
  - vm_compute. reflexivity.
Defined.

Lemma minima_count_and_index_witness :
  forallb (min_line_ok (H := decimal)) min_data = true
  ∧ coords_ok (H := decimal) (2 * length min_data) extractedmin = true
  ∧ let st :=
      (run (H := decimal) 2 min_data extractedmin ts_data extractedts).2 in
    count is_minimum (heap st) = length min_data
    ∧ first_phase (trace st) = built 0 (length min_data)
    ∧ size (minima st) = length min_data
    ∧ ∀ i line, min_data !! i = Some line →
        ∃ o, heap st !! i = Some o
             ∧ min_of_line 2 line (drop (2 * i) extractedmin) o
             ∧ minima st !! (Z.of_nat i + 1)%Z = Some i.
Proof.
  split; [vm_compute; reflexivity|]. split; [vm_compute; reflexivity|].
  apply (minima_count_and_index (H := decimal) 2 min_data extractedmin
           ts_data extractedts); vm_compute; reflexivity.
Defined.

Lemma ts_count_witness :
  ∃ st,
    run (H := decimal) 2 min_data extractedmin ts_data extractedts
      = (Ok tt, st)
    ∧ count is_ts (heap st) = length ts_data
    ∧ trace st = built 0 (length min_data) ++ [Commit]
                   ++ built (length min_data) (length ts_data) ++ [Commit]
    ∧ pending st = []
    ∧ durable st = seq 0 (length min_data + length ts_data)
    ∧ ∀ j line, ts_data !! j = Some line →
        ∃ o, heap st !! (length min_data + j) = Some o
             ∧ ts_of_line 2 (minima st) line (drop (2 * j) extractedts) o.
Proof.
  apply (ts_count (H := decimal) 2 min_data extractedmin ts_data extractedts);
    vm_compute; reflexivity.
Defined.

Lemma two_commits_witness :
  ∃ mins tss,
    heap (run (H := decimal) 2 min_data extractedmin ts_data extractedts).2
      = mins ++ tss
    ∧ forallb is_minimum mins = true ∧ forallb is_ts tss = true
    ∧ length mins = 2 ∧ length tss = 1
    ∧ trace (run (H := decimal) 2 min_data extractedmin ts_data extractedts).2
      = built 0 (length mins) ++ [Commit]
          ++ built (length mins) (length tss) ++ [Commit]
    ∧ count is_commit
        (trace (run (H := decimal) 2 min_data extractedmin ts_data
                  extractedts).2) = 2.
Proof.
  apply (two_commits (H := decimal) 2 min_data extractedmin ts_data
           extractedts (Ok tt)).
  - apply surjective_pairing.
  - reflexivity.
Defined.

(** With an empty index, ordinal 1 of the sample line is unknown. *)
Lemma ts_body_lookup_error_witness :
  ∃ k st',
    ts_body (H := decimal) 2 "-9.0 1.0 1 1 2 0 0 0" start
      = (Raise (KeyError k), st')
    ∧ (k = 1%Z ∨ k = 2%Z) ∧ minima start !! k = None
    ∧ heap st' = heap start ∧ pending st' = pending start
    ∧ trace st' = trace start.
Proof.
  apply (ts_body_lookup_error (H := decimal) 2 start block0
           ["0.0 1.0 0.0"; "0.0 0.0 1.0"] "-9.0 1.0 1 1 2 0 0 0"
           "-9.0" "1.0" "1" "1" "2" "0" "0" "0" ((-90)%Z, 1) 1%Z 2%Z);
    try (vm_compute; reflexivity).
  left. vm_compute. reflexivity.
Defined.

(** C6 as stated fails: the second line of this [ts.data] names ordinal
    3 while two minima exist; the run stops with [KeyError 3], and the
    transition state of the first line, reference 2, has been staged. *)
Lemma lookup_failure_after_staging :
  let r := run (H := decimal) 2 min_data extractedmin
             (ts_data ++ [ts_line_3]) extractedts2 in
  r.1 = Raise (KeyError 3)
  ∧ pending r.2 = [2]
  ∧ is_ts (H := decimal) <$> (heap r.2 !! 2) = Some true
  ∧ trace r.2
    = [Construct 0; Add 0; Construct 1; Add 1; Commit; Construct 2; Add 2].
Proof. vm_compute. repeat split. Qed.

Lemma lookup_failure_witness :
  ∃ k st,
    run (H := decimal) 2 min_data extractedmin
      (ts_data ++ ts_line_3 :: []) extractedts2 = (Raise (KeyError k), st)
    ∧ (k = 2%Z ∨ k = 3%Z) ∧ minima st !! k = None
    ∧ length (heap st) = 2 + 1
    ∧ count is_ts (heap st) = 1
    ∧ pending st = seq 2 1
    ∧ durable st = seq 0 2
    ∧ count is_commit (trace st) = 1.
Proof.
  apply (lookup_failure (H := decimal) 2 min_data extractedmin ts_data
           ts_line_3 [] extractedts2 "-8.5" "1.0" "1" "2" "3" "0" "0" "0"
           2%Z 3%Z); try (vm_compute; reflexivity).
  right. vm_compute. intros [_ Hle]. apply Hle. reflexivity.
Defined.

(** C7 as stated fails: a minimum line whose frequency and inertia
    components are not numbers is read without error. *)
Lemma words_in_unused_fields_accepted :
  py_float (PyNum := decimal) "abc" = None
  ∧ py_float (PyNum := decimal) "x" = None
  ∧ split min_line_words = ["-9.8"; "abc"; "1"; "x"; "y"; "z"]
  ∧ (min_body (H := decimal) 2 min_line_words start).1 = Ok tt
  ∧ heap (min_body (H := decimal) 2 min_line_words start).2
    = [Minimum (H := decimal) ((-98)%Z, 1) block0].
Proof. vm_compute. repeat split. Qed.

(** A line of five fields is refused. *)
Lemma summary_line_value_error_witness :
  ∃ w st',
    min_body (H := decimal) 2 min_line_short start
      = (Raise (ValueError w), st').
Proof.
  apply (summary_line_value_error (H := decimal) 2 start block0
           ["0.0 1.0 0.0"; "0.0 0.0 1.0"] min_line_short).
  - vm_compute. reflexivity.
  - left. vm_compute. discriminate.
Defined.

(** C8 as stated fails: a coordinate line with a single token is read
    without error, its value filling the three components. *)
Lemma single_token_line_accepted :
  split "1.5" = ["1.5"]
  ∧ read_coords (H := decimal) 1 ["1.5"]
    = (Ok [(15%Z, 1); (15%Z, 1); (15%Z, 1)], []).
Proof. vm_compute. split; reflexivity. Qed.

(** A line of two tokens is refused. *)
Lemma read_coords_contract_witness :
  ∃ w f',
    read_coords (H := decimal) 2 ["1 2 3"; "4 5"; "6 7 8"]
      = (Raise (ValueError w), f').
Proof.
  eapply (read_coords_contract (H := decimal) 2 ["1 2 3"; "4 5"; "6 7 8"])
    with (j := 1) (line := "4 5").
  - apply le_n.
  - reflexivity.
  - left. vm_compute. split; discriminate.
Defined.

(** Three coordinate lines for two minima of two atoms: the run stops on
    the second minimum.  One line for one transition state: the run stops
    on it. *)
Lemma coords_exhausted_witness :
  (∃ st,
     run (H := decimal) 2 min_data (take 3 extractedmin) ts_data extractedts
       = (Raise (ValueError (Broadcast 0 3)), st)
     ∧ length (heap st) = 3 / 2 ∧ pending st = seq 0 (3 / 2)
     ∧ durable st = [] ∧ fcoords st = [])
  ∧ (∃ st,
       run (H := decimal) 2 min_data extractedmin ts_data (take 1 extractedts)
         = (Raise (ValueError (Broadcast 0 3)), st)
       ∧ length (heap st) = 2 + 1 / 2 ∧ pending st = seq 2 (1 / 2)
       ∧ durable st = seq 0 2 ∧ fcoords st = []).
Proof.
  split.
  - apply (coords_exhausted (H := decimal) 2 min_data (take 3 extractedmin)
             ts_data extractedts); vm_compute; (reflexivity || lia).
  - apply (coords_exhausted (H := decimal) 2 min_data extractedmin
             ts_data (take 1 extractedts)); vm_compute; (reflexivity || lia).
Defined.

Lemma min_line_energy_only_witness :
  ∃ st',
    min_body (H := decimal) 2 min_line_words start = (Ok tt, st')
    ∧ heap st' = heap start ++ [Minimum (H := decimal) ((-98)%Z, 1) block0]
    ∧ pending st' = pending start ++ [length (heap start)]
    ∧ minima st' = <[mini start := length (heap start)]> (minima start)
    ∧ mini st' = (mini start + 1)%Z.
Proof.
  apply (min_line_energy_only (H := decimal) 2 start block0
           ["0.0 1.0 0.0"; "0.0 0.0 1.0"] min_line_words
           "-9.8" "abc" "1" "x" "y" "z" ((-98)%Z, 1));
    vm_compute; reflexivity.
Defined.

(** ** The scenarios of the specification *)

(** Two summary lines, two atoms, four coordinate lines: two minima with
    ordinals 1 and 2, each with six coordinates. *)
Example two_minima :
  let st := (run (H := decimal) 2 min_data extractedmin [] []).2 in
  (run (H := decimal) 2 min_data extractedmin [] []).1 = Ok tt
  ∧ heap st
    = [Minimum (H := decimal) ((-105)%Z, 1) block0;
       Minimum (H := decimal) ((-98)%Z, 1)
         [(0%Z, 1); (10%Z, 1); (0%Z, 1); (0%Z, 1); (0%Z, 1); (10%Z, 1)]]
  ∧ minima st !! 1%Z = Some 0 ∧ minima st !! 2%Z = Some 1
  ∧ minima st !! 3%Z = None
  ∧ durable st = [0; 1].
Proof. vm_compute. repeat split. Qed.

(** A transition state that names ordinal 3 when two minima exist, on the
    first line of [ts.data]: [KeyError], nothing staged in the second
    phase. *)
Example unknown_ordinal_first_line :
  let r := run (H := decimal) 2 min_data extractedmin [ts_line_3]
             extractedts in
  r.1 = Raise (KeyError 3) ∧ pending r.2 = [] ∧ length (heap r.2) = 2.
Proof. vm_compute. repeat split. Qed.

(** The script itself reads 38 lines per structure. *)
Example main_one_minimum :
  let r := main (H := decimal) ["-1.0 1 1 0 0 0"] (replicate 38 "0 0 0")
             [] [] in
  r.1 = Ok tt ∧ length (heap r.2) = 1 ∧ fcoords r.2 = [].
Proof. vm_compute. repeat split. Qed.

(** ** The further properties on the sample files *)

Lemma read_coords_surplus_witness :
  read_coords (H := decimal) 2 (extractedts ++ ["not read"])
  = let '(r, f') := read_coords (H := decimal) 2 extractedts in
    (r, f' ++ ["not read"]).
Proof.
  apply (read_coords_surplus (H := decimal) 2 extractedts ["not read"]).
  simpl. lia.
Defined.

Lemma read_coords_values_witness :
  ∃ vals,
    floats (H := decimal) (split "7") = Ok vals
    ∧ ((∃ v, vals = [v]
             ∧ take 3 (drop (3 * 1)
                 [(1%Z, 0); (2%Z, 0); (3%Z, 0); (7%Z, 0); (7%Z, 0); (7%Z, 0)])
               = [v; v; v])
       ∨ (length vals = 3
          ∧ take 3 (drop (3 * 1)
              [(1%Z, 0); (2%Z, 0); (3%Z, 0); (7%Z, 0); (7%Z, 0); (7%Z, 0)])
            = vals)).
Proof.
  apply (read_coords_values (H := decimal) 2 ["1 2 3"; "7"]
           [(1%Z, 0); (2%Z, 0); (3%Z, 0); (7%Z, 0); (7%Z, 0); (7%Z, 0)] []
           1 "7").
  - vm_compute. reflexivity.
  - lia.
  - reflexivity.
Defined.

Lemma read_coords_blank_or_eof_witness :
  read_coords (H := decimal) 2 ["1 2 3"]
  = (Raise (ValueError (Broadcast 0 3)), drop 2 ["1 2 3"])
  ∧ read_coords (H := decimal) 2 ["1 2 3"; "  "; "4 5 6"]
    = (Raise (ValueError (Broadcast 0 3)), drop 2 ["1 2 3"; "  "; "4 5 6"]).
Proof.
  split.
  - apply (read_coords_blank_or_eof (H := decimal) 2 ["1 2 3"] 1).
    + lia.
    + vm_compute. reflexivity.
    + left. reflexivity.
  - apply (read_coords_blank_or_eof (H := decimal) 2
             ["1 2 3"; "  "; "4 5 6"] 1).
    + lia.
    + vm_compute. reflexivity.
    + right. exists "  ". split; reflexivity.
Defined.

Lemma line_failure_frame_witness :
  let st' := (min_body (H := decimal) 2 min_line_short start).2 in
  heap st' = heap start ∧ pending st' = pending start
  ∧ durable st' = durable start ∧ trace st' = trace start
  ∧ minima st' = minima start ∧ mini st' = mini start.
Proof.
  apply (line_failure_frame (H := decimal) 2 min_line_short start
           (ValueError (Unpack 6 5))).
  left. apply surjective_pairing.
Defined.


Lemma session_holds_heap_witness :
  let st :=
    (run (H := decimal) 2 min_data extractedmin (ts_data ++ [ts_line_3])
       extractedts2).2 in
  durable st ++ pending st = seq 0 (length (heap st))
  ∧ List.filter (λ ev, negb (is_commit ev)) (trace st)
    = built 0 (length (heap st)).
Proof.
  apply (session_holds_heap (H := decimal) 2 min_data extractedmin
           (ts_data ++ [ts_line_3]) extractedts2 (Raise (KeyError 3))).
  apply surjective_pairing.
Defined.

Lemma index_contiguous_witness :
  let st :=
    (run (H := decimal) 2 min_data extractedmin ts_data extractedts).2 in
  (∀ k r, minima st !! k = Some r
          ↔ (1 ≤ k < mini st)%Z ∧ r = Z.to_nat (k - 1))
  ∧ mini st = (Z.of_nat (count is_minimum (heap st)) + 1)%Z.
Proof.
  apply (index_contiguous (H := decimal) 2 min_data extractedmin ts_data
           extractedts (Ok tt)).
  apply surjective_pairing.
Defined.


Lemma key_error_origin_witness :
  let st :=
    (run (H := decimal) 2 min_data extractedmin (ts_data ++ [ts_line_3])
       extractedts2).2 in
  count is_commit (trace st) = 1
  ∧ durable st = seq 0 (length min_data)
  ∧ minima st !! 3%Z = None
  ∧ ¬ (1 ≤ 3 ≤ Z.of_nat (length min_data))%Z.
Proof.
  apply (key_error_origin (H := decimal) 2 min_data extractedmin
           (ts_data ++ [ts_line_3]) extractedts2 3%Z).
  apply surjective_pairing.
Defined.

Lemma surplus_coordinates_ignored_witness :
  let st :=
    (run (H := decimal) 2 min_data extractedmin ts_data extractedts).2 in
  ∃ st',
    run (H := decimal) 2 min_data (extractedmin ++ ["9 9 9"]) ts_data
      (extractedts ++ ["not read"]) = (Ok tt, st')
    ∧ heap st' = heap st ∧ pending st' = pending st
    ∧ durable st' = durable st ∧ trace st' = trace st
    ∧ minima st' = minima st ∧ mini st' = mini st
    ∧ fcoords st' = fcoords st ++ ["not read"].
Proof.
  apply (surplus_coordinates_ignored (H := decimal) 2 min_data extractedmin
           ts_data extractedts ["9 9 9"] ["not read"]).
  apply surjective_pairing.
Defined.

Lemma first_loop_failure_final_witness :
  run (H := decimal) 2 min_data (take 3 extractedmin) [ts_line_3] []
  = (Raise (ValueError (Broadcast 0 3)),
     (run (H := decimal) 2 min_data (take 3 extractedmin) ts_data
        extractedts).2).
Proof.
  apply (first_loop_failure_final (H := decimal) 2 min_data
           (take 3 extractedmin) ts_data extractedts [ts_line_3] []).
  - apply surjective_pairing.
  - vm_compute. reflexivity.
Defined.
